(** * PictoPy catalog store ([utils/db.py]): model and verified properties

    The module under study keeps a media catalog in three SQLite relations,
    [MEDIA], [CLASS] and [JUNCTION], and offers Python functions that issue
    a fixed set of parameterised SQL statements through [executeQuery].

    The development is a shallow embedding:
    - the three relations are lists of records, in rowid order;
    - every SQL statement text that occurs in [db.py] is one constructor of
      [query], and [run_query] gives its effect on the relations, with the
      uniqueness conflicts SQLite reports as [sqlite3.IntegrityError];
    - the Python functions are written in a small state-and-exception monad
      over the connection and a trace of the externally visible effects
      (statements executed, [deleteFile] calls, [print] calls).
    [connectDB], [createTable] and [closeConnection] only open, shape and
    close the store; the schema they set up is taken from the specification.

    What the engine leaves open is a parameter of the development, the
    record [engine]: the order in which the join of [groupByClass] produces
    its rows ([plan]), whether the schema cascades a [MEDIA] delete to
    [JUNCTION] ([cascade]), whether the surrogate keys are declared
    [AUTOINCREMENT] ([autoincrement]).  The filesystem probe [pathExist]
    is a parameter too.  The engine's limit on the number of host
    parameters of one statement ([max_variables]) is a parameter as well:
    the two statements with an [IN] list of any length are refused above
    it with [sqlite3.OperationalError].  Integers are unbounded, as
    Python's are: rowids and the [hidden] value are not confined to the
    64 bits of an SQLite [INTEGER]. *)

From Stdlib Require Import ZArith List String Ascii Bool Lia Permutation.
From Stdlib Require Import DecimalString.
Import ListNotations.

Local Open Scope string_scope.
Local Open Scope list_scope.
Local Open Scope Z_scope.

(** ** Text: [str.split(',')] and the separator of [GROUP_CONCAT] *)

Module Text.

Definition comma : ascii := ","%char.

(** Python's [s.split(',')]: the maximal comma-free pieces of [s], in
    order; never empty ([''.split(',') == ['']]). *)
Fixpoint split (s : string) : list string :=
  match s with
  | EmptyString => [EmptyString]
  | String a s' =>
      if Ascii.eqb a comma then EmptyString :: split s'
      else match split s' with
           | [] => [String a EmptyString]
           | w :: ws => String a w :: ws
           end
  end.

(** [','.join(l)], which is also what [GROUP_CONCAT] builds from the
    values of a group. *)
Definition join (l : list string) : string := String.concat "," l.

Fixpoint has_comma (s : string) : bool :=
  match s with
  | EmptyString => false
  | String a s' => Ascii.eqb a comma || has_comma s'
  end.

(** Python's [x in t] for a tuple of strings. *)
Definition mem (x : string) (t : list string) : bool :=
  existsb (String.eqb x) t.

(** SQLite's rendering of an integer as text. *)
Definition of_Z (z : Z) : string := NilZero.string_of_int (Z.to_int z).

End Text.

(** ** The relations *)

Record MediaRow := mkMedia
  { m_imageID : Z; m_hash : string; m_path : string; m_hidden : Z }.

Record ClassRow := mkClass
  { c_classID : Z; c_class : string }.

Record JunctionRow := mkJunction
  { j_imageID : Z; j_classID : Z }.

(** Modelled from the spec: the schema, which [createTable] receives from a
    caller outside this file.  [MEDIA(imageID PK, hash UNIQUE, path, hidden)],
    [CLASS(classID PK, class UNIQUE)], [JUNCTION(imageID, classID)] with the
    pair as composite key.  [media_seq] and [class_seq] are the two rows of
    [sqlite_sequence], read only when the keys are [AUTOINCREMENT]. *)
Record store := mkStore
  { MEDIA : list MediaRow;
    CLASS : list ClassRow;
    JUNCTION : list JunctionRow;
    media_seq : Z;
    class_seq : Z }.

Definition empty_store : store := mkStore [] [] [] 0 0.

(** The columns of [MEDIA] that [groupOf] may name. *)
Inductive column := ColImageID | ColHash | ColPath | ColHidden.

Definition column_text (col : column) (r : MediaRow) : string :=
  match col with
  | ColImageID => Text.of_Z (m_imageID r)
  | ColHash => m_hash r
  | ColPath => m_path r
  | ColHidden => Text.of_Z (m_hidden r)
  end.

Definition junction_eqb (a b : JunctionRow) : bool :=
  (j_imageID a =? j_imageID b) && (j_classID a =? j_classID b).

(** Largest rowid in use, 0 for an empty table. *)
Definition max_rowid (ids : list Z) : Z :=
  match ids with
  | [] => 0
  | i :: rest => fold_left Z.max rest i
  end.

(** First occurrences, in order: the distinct keys of a [GROUP BY]. *)
Fixpoint distinct (l : list string) : list string :=
  match l with
  | [] => []
  | x :: l' => x :: filter (fun y => negb (String.eqb y x)) (distinct l')
  end.

(** Python [dict] with string keys, in insertion order: [d[k] = v] keeps
    the position of an existing key. *)
Definition dict (V : Type) := list (string * V).

Fixpoint dict_set {V} (d : dict V) (k : string) (v : V) : dict V :=
  match d with
  | [] => [(k, v)]
  | (k', v') :: d' =>
      if String.eqb k k' then (k', v) :: d'
      else (k', v') :: dict_set d' k v
  end.

Fixpoint dict_get {V} (d : dict V) (k : string) : option V :=
  match d with
  | [] => None
  | (k', v') :: d' => if String.eqb k k' then Some v' else dict_get d' k
  end.

Definition dict_keys {V} (d : dict V) : list string := map fst d.

(** ** The SQL statements of [db.py]

    One constructor per statement text; the index is the type of what the
    caller reads from the cursor.  A one-column row is modelled by its
    value, the two-column rows of the grouping query by a pair, and the two
    [INSERT]s that are executed with [rowID = 1] by [cursor.lastrowid]
    (their [fetchall()] is empty and bound to [_]). *)
Inductive query : Type -> Type :=
| SelectHashExists (hashValue : string) : query (list Z)
| SelectGroupConcat (groupOf : column) (hidden : Z)
    : query (list (string * string))
| UpdateHidden (hidden : Z) (paths : list string) : query unit
| DeleteMedia (paths : list string) : query unit
| SelectPaths : query (list string)
| InsertMedia (hash path : string) : query Z
| InsertClass (class : string) : query Z
| SelectClassID (class : string) : query (list Z)
| InsertOrIgnoreJunction (imageID classID : Z) : query unit
| UpdatePath (path hash : string) : query unit.

(** Exceptions the Python code can meet: the engine's uniqueness conflict,
    its refusal of a statement with too many host parameters, and the
    [IndexError] / [KeyError] of subscripting. *)
Inductive exn := IntegrityError | OperationalError | IndexError | KeyError.

Definition exn_eqb (a b : exn) : bool :=
  match a, b with
  | IntegrityError, IntegrityError => true
  | OperationalError, OperationalError => true
  | IndexError, IndexError => true
  | KeyError, KeyError => true
  | _, _ => false
  end.

(** Effects visible outside the process memory. *)
Inductive event :=
| Executed {A : Type} (q : query A)
| DeleteFile (paths : list string)
| Print (paths : list string).

(** The live connection together with the effects performed so far. *)
Record world := mkWorld { db : store; trace : list event }.

(** ** The monad of the Python code: state and exceptions *)

Definition M (A : Type) : Type := world -> (exn + A) * world.

Definition ret {A} (a : A) : M A := fun w => (inr a, w).

Definition bind {A B} (m : M A) (k : A -> M B) : M B :=
  fun w =>
    match m w with
    | (inr a, w') => k a w'
    | (inl e, w') => (inl e, w')
    end.

Definition raise {A} (e : exn) : M A := fun w => (inl e, w).

(** [try: body  except e: handler]. *)
Definition try_except {A} (body : M A) (e : exn) (handler : M A) : M A :=
  fun w =>
    match body w with
    | (inl e', w') => if exn_eqb e' e then handler w' else (inl e', w')
    | r => r
    end.

Definition emit (e : event) : M unit :=
  fun w => (inr tt, mkWorld (db w) (trace w ++ [e])).

Declare Scope py_scope.
Delimit Scope py_scope with py.
Notation "x <- m ;; k" := (bind m (fun x => k))
  (at level 61, m at next level, right associativity) : py_scope.
Notation "m ;; k" := (bind m (fun _ => k))
  (at level 61, right associativity) : py_scope.
Local Open Scope py_scope.

(** [for x in l: acc = body(acc, x)]. *)
Fixpoint for_each {A B} (l : list A) (body : B -> A -> M B) (acc : B) : M B :=
  match l with
  | [] => ret acc
  | x :: l' => acc' <- body acc x ;; for_each l' body acc'
  end.

(** [l[0]]. *)
Definition first {A} (l : list A) : M A :=
  match l with
  | [] => raise IndexError
  | x :: _ => ret x
  end.

(** [d[k]]. *)
Definition subscript {V} (d : dict V) (k : string) : M V :=
  match dict_get d k with
  | Some v => ret v
  | None => raise KeyError
  end.

(** [FROM CLASS c JOIN JUNCTION j ON c.classID = j.classID
     JOIN MEDIA i ON j.imageID = i.imageID WHERE i.hidden = ?],
    projected on [(c.class, i.groupOf)]. *)
Definition joined (s : store) (groupOf : column) (hidden : Z)
  : list (string * string) :=
  flat_map (fun c =>
    flat_map (fun j =>
      map (fun i => (c_class c, column_text groupOf i))
          (filter (fun i => (m_imageID i =? j_imageID j)
                            && (m_hidden i =? hidden))
                  (MEDIA s)))
      (filter (fun j => j_classID j =? c_classID c) (JUNCTION s)))
    (CLASS s).

(** What the engine and the schema leave open.  [cascade]: the column
    [JUNCTION.imageID] is declared [ON DELETE CASCADE] and enforced.
    [autoincrement]: the surrogate keys are declared [AUTOINCREMENT].
    [plan]: the rows the engine feeds to the grouping of [groupByClass],
    for a store, a projected column and a visibility; the engine may
    produce the rows of the join in any order.  [max_variables]: the
    engine's limit on the host parameters of one statement
    ([SQLITE_LIMIT_VARIABLE_NUMBER]; 32766 by default, 999 in older
    builds). *)
Record engine := mkEngine
  { cascade : bool;
    autoincrement : bool;
    plan : store -> column -> Z -> list (string * string);
    max_variables : Z }.

(** The limit in force.  Every statement of fixed shape in [db.py] binds
    at most two values, and below that the module cannot run at all, so
    the limit is taken to be at least 2; only the two statements with an
    [IN] list of any length are checked against it. *)
Definition variable_limit (eng : engine) : Z := Z.max 2 (max_variables eng).

(** A statement with [n] host parameters goes beyond the limit: the engine
    refuses it with "too many SQL variables". *)
Definition too_many_variables (eng : engine) (n : nat) : bool :=
  variable_limit eng <? Z.of_nat n.

(** The filesystem as [utils.fs.pathExist] reports it. *)
Record filesystem := mkFilesystem { pathExist : string -> bool }.

(** The instances at which the statements below are tried: [AUTOINCREMENT]
    keys, no cascade, the rows of the join in the order of the nested
    loops, the default limit on host parameters; a filesystem on which
    only [/img/1.png] exists. *)
Definition nested_loop_engine : engine :=
  mkEngine false true joined 32766.

(** Two more engines for the further properties: plain rowid keys without
    cascade, and a cascading schema. *)
Definition rowid_engine : engine := mkEngine false false joined 32766.

Definition cascading_engine : engine := mkEngine true true joined 32766.

Definition only_first_on_disk : filesystem :=
  mkFilesystem (fun path => String.eqb path "/img/1.png").





(** ** The engine and the functions of [db.py] *)

Section Catalog.

Variable eng : engine.
(** The plan only rearranges the rows of the join. *)
Hypothesis plan_perm :
  forall s groupOf hidden,
    Permutation (plan eng s groupOf hidden) (joined s groupOf hidden).
Variable fs : filesystem.

(** Rowid of a new row: one more than the largest in use, and with
    [AUTOINCREMENT] also more than any rowid the table ever held. *)
Definition new_rowid (ids : list Z) (seq : Z) : Z :=
  1 + (if autoincrement eng then Z.max seq (max_rowid ids) else max_rowid ids).

Definition new_seq (seq id : Z) : Z := if autoincrement eng then id else seq.

(** [SELECT key, GROUP_CONCAT(value) ... GROUP BY key] over given rows. *)
Definition group_concat (rows : list (string * string))
  : list (string * string) :=
  map (fun k =>
         (k, Text.join (map snd (filter (fun r => String.eqb (fst r) k) rows))))
      (distinct (map fst rows)).

Definition path_in (paths : list string) (r : MediaRow) : bool :=
  Text.mem (m_path r) paths.

Definition set_hidden (hidden : Z) (r : MediaRow) : MediaRow :=
  mkMedia (m_imageID r) (m_hash r) (m_path r) hidden.

Definition set_path (path : string) (r : MediaRow) : MediaRow :=
  mkMedia (m_imageID r) (m_hash r) path (m_hidden r).

Definition with_media (s : store) (rows : list MediaRow) : store :=
  mkStore rows (CLASS s) (JUNCTION s) (media_seq s) (class_seq s).

(** Effect and result of one statement; [inl] is the exception raised, in
    which case the statement has changed nothing.  The conflicts are those
    of the schema: [hash] and [class] are [UNIQUE], and the pair is the key
    of [JUNCTION], which [INSERT OR IGNORE] turns into a no-op.  The
    [UPDATE] of [toggleVisibility] binds [hidden] and the paths, the
    [DELETE] of [deleteFromDB] the paths; beyond the limit on host
    parameters they are refused. *)
Definition run_query {A} (q : query A) (s : store) : exn + (A * store) :=
  match q in query T return exn + (T * store) with
  | SelectHashExists hashValue =>
      inr ([if existsb (fun r => String.eqb (m_hash r) hashValue) (MEDIA s)
            then 1 else 0], s)
  | SelectGroupConcat groupOf hidden =>
      inr (group_concat (plan eng s groupOf hidden), s)
  | UpdateHidden hidden paths =>
      if too_many_variables eng (1 + List.length paths)
      then inl OperationalError
      else
      inr (tt, with_media s
                 (map (fun r => if path_in paths r then set_hidden hidden r
                                else r) (MEDIA s)))
  | DeleteMedia paths =>
      if too_many_variables eng (List.length paths)
      then inl OperationalError
      else
      let gone := filter (path_in paths) (MEDIA s) in
      let kept := filter (fun r => negb (path_in paths r)) (MEDIA s) in
      let links :=
        if cascade eng
        then filter (fun j => negb (existsb (fun r => m_imageID r =? j_imageID j)
                                            gone))
                    (JUNCTION s)
        else JUNCTION s in
      inr (tt, mkStore kept (CLASS s) links (media_seq s) (class_seq s))
  | SelectPaths => inr (map m_path (MEDIA s), s)
  | InsertMedia hash path =>
      if existsb (fun r => String.eqb (m_hash r) hash) (MEDIA s)
      then inl IntegrityError
      else
        let id := new_rowid (map m_imageID (MEDIA s)) (media_seq s) in
        inr (id, mkStore (MEDIA s ++ [mkMedia id hash path 0]) (CLASS s)
                         (JUNCTION s) (new_seq (media_seq s) id) (class_seq s))
  | InsertClass class =>
      if existsb (fun c => String.eqb (c_class c) class) (CLASS s)
      then inl IntegrityError
      else
        let id := new_rowid (map c_classID (CLASS s)) (class_seq s) in
        inr (id, mkStore (MEDIA s) (CLASS s ++ [mkClass id class])
                         (JUNCTION s) (media_seq s) (new_seq (class_seq s) id))
  | SelectClassID class =>
      inr (map c_classID
               (filter (fun c => String.eqb (c_class c) class) (CLASS s)), s)
  | InsertOrIgnoreJunction imageID classID =>
      let row := mkJunction imageID classID in
      if existsb (junction_eqb row) (JUNCTION s)
      then inr (tt, s)
      else inr (tt, mkStore (MEDIA s) (CLASS s) (JUNCTION s ++ [row])
                            (media_seq s) (class_seq s))
  | UpdatePath path hash =>
      inr (tt, with_media s
                 (map (fun r => if String.eqb (m_hash r) hash
                                then set_path path r else r) (MEDIA s)))
  end.

(** [executeQuery(conn, query, params)]: the statement is recorded, then
    run; a failing statement leaves the relations as they were. *)
Definition executeQuery {A} (q : query A) : M A :=
  fun w =>
    let tr := trace w ++ [Executed q] in
    match run_query q (db w) with
    | inl e => (inl e, mkWorld (db w) tr)
    | inr (a, s') => (inr a, mkWorld s' tr)
    end.

(** [utils.fs.deleteFile(paths)] and [print(paths)], kept as events. *)
Definition deleteFile (paths : list string) : M unit := emit (DeleteFile paths).
Definition print (paths : list string) : M unit := emit (Print paths).

Definition hashExist (hashValue : string) : M bool :=
  result <- executeQuery (SelectHashExists hashValue) ;;
  r <- first result ;;
  ret (r =? 1).

(** The Python defaults [hidden = 0] and [groupOf = path] of
    [groupByClass] and [tupleByClass] are written out where a caller
    relies on them. *)
Definition groupByClass (hidden : Z) (groupOf : column)
  : M (dict (list string)) :=
  rows <- executeQuery (SelectGroupConcat groupOf hidden) ;;
  for_each rows
    (fun d row => ret (dict_set d (fst row) (Text.split (snd row)))) [].

Definition toggleVisibility (paths : list string) (hidden : Z) : M unit :=
  executeQuery (UpdateHidden hidden paths).

Definition tupleByClass (classes : list string) (hidden : Z)
    (groupOf : column) : M (list string) :=
  groups <- groupByClass hidden groupOf ;;
  for_each (dict_keys groups)
    (fun res class_ =>
       if Text.mem class_ classes
       then (t <- subscript groups class_ ;; ret (res ++ t))
       else ret res) [].

Definition hideByClass (classes : list string) : M unit :=
  paths <- tupleByClass classes 0 ColPath ;;
  toggleVisibility paths 1.

Definition unhideByClass (classes : list string) : M unit :=
  paths <- tupleByClass classes 1 ColPath ;;
  toggleVisibility paths 0.

Definition deleteFromDB (paths : list string) : M unit :=
  executeQuery (DeleteMedia paths) ;;
  deleteFile paths.

(** [deleteFromDB(conn, tupleByClass(conn, classes))]: the visibility is
    the default of [tupleByClass], 0. *)
Definition deleteByClass (classes : list string) : M unit :=
  paths <- tupleByClass classes 0 ColPath ;;
  deleteFromDB paths.

Definition cleanDB : M unit :=
  rows <- executeQuery SelectPaths ;;
  paths <- for_each rows
             (fun paths path =>
                if negb (pathExist fs path) then ret (paths ++ [path])
                else ret paths) [] ;;
  match paths with
  | [] => ret tt
  | _ :: _ => print paths ;; deleteFromDB paths
  end.

(** Body of the loop [for className in imgClass] of [insertIntoDB]. *)
Definition assign_class (imageID : Z) (_ : unit) (className : string)
  : M unit :=
  classID <- try_except
               (executeQuery (InsertClass className))
               IntegrityError
               (rows <- executeQuery (SelectClassID className) ;;
                first rows) ;;
  executeQuery (InsertOrIgnoreJunction imageID classID).

Definition insertIntoDB (file : string) (imgClass : list string)
    (imgHash : string) : M unit :=
  try_except
    (imageID <- executeQuery (InsertMedia imgHash file) ;;
     for_each imgClass (assign_class imageID) tt)
    IntegrityError
    (executeQuery (UpdatePath file imgHash)).

(** Running a computation on a store, from an empty trace. *)
Definition run {A} (m : M A) (s : store) : (exn + A) * world :=
  m (mkWorld s []).

Definition result_of {A} (r : (exn + A) * world) : exn + A := fst r.
Definition db_of {A} (r : (exn + A) * world) : store := db (snd r).
Definition trace_of {A} (r : (exn + A) * world) : list event := trace (snd r).

(** ** Scenarios: sequences of calls on which the claims are tried *)

Definition visible_items (s : store) : list MediaRow :=
  filter (fun r => m_hidden r =? 0) (MEDIA s).

(** [insert(h, p1, [c])], [insert(h, p2, [])], then the grouping. *)
Definition reinsert_then_group (p1 p2 c h : string)
  : M (dict (list string)) :=
  insertIntoDB p1 [c] h ;;
  insertIntoDB p2 [] h ;;
  groupByClass 0 ColPath.

(** Two hashes under one label. *)
Definition two_items_one_class (p1 h1 p2 h2 c : string) : M unit :=
  insertIntoDB p1 [c] h1 ;;
  insertIntoDB p2 [c] h2.

(** One item tagged [cat], then hidden. *)
Definition hidden_cat : M unit :=
  insertIntoDB "/img/1.png" ["cat"] "aa11" ;;
  hideByClass ["cat"].

(** One item tagged both [cat] and [dog]. *)
Definition cat_and_dog : M unit :=
  insertIntoDB "/img/1.png" ["cat"; "dog"] "aa11".

(** A visible [cat] and a hidden [dog] that end up with the same path:
    the [dog] is hidden first, then rediscovered at the path of the
    [cat]. *)
Definition shared_path : M unit :=
  insertIntoDB "/img/a.png" ["cat"] "aa11" ;;
  insertIntoDB "/img/b.png" ["dog"] "bb22" ;;
  hideByClass ["dog"] ;;
  insertIntoDB "/img/a.png" [] "bb22".

(** Three items, of which only the first is still on disk. *)
Definition three_items : M unit :=
  insertIntoDB "/img/1.png" [] "aa11" ;;
  insertIntoDB "/img/2.png" [] "bb22" ;;
  insertIntoDB "/img/3.png" [] "cc33".

(** ** Vocabulary of the statements *)

(** A statement with [n] host parameters is within the engine's limit. *)
Definition fits (n : nat) : Prop := Z.of_nat n <= variable_limit eng.

(** The paths of [MEDIA], in row order, that [pathExist] reports absent:
    the list [cleanDB] collects. *)
Definition stale_paths (s : store) : list string :=
  filter (fun p => negb (pathExist fs p)) (map m_path (MEDIA s)).

(** [i] is a row of [MEDIA] linked through [JUNCTION] to a row of [CLASS]
    whose label is [label]. *)
Definition member (s : store) (i : MediaRow) (label : string) : Prop :=
  In i (MEDIA s) /\
  exists c j, In c (CLASS s) /\ In j (JUNCTION s) /\
              c_class c = label /\
              j_classID j = c_classID c /\ j_imageID j = m_imageID i.

Definition comma_free (v : string) : Prop := Text.has_comma v = false.

(** The value [groupByClass] builds for the rows the engine returns:
    one entry per distinct label, holding the pieces of the values of the
    rows with that label. *)
Definition groups_of (rows : list (string * string)) : dict (list string) :=
  map (fun k =>
         (k, flat_map Text.split
               (map snd (filter (fun r => String.eqb (fst r) k) rows))))
      (distinct (map fst rows)).

(** The rows of the join whose label is one of [classes]. *)
Definition requested {V} (classes : list string) (rows : list (string * V))
  : list (string * V) :=
  filter (fun r => Text.mem (fst r) classes) rows.

(** The number of rows of the join for the given classes at a visibility:
    the length of the tuple of paths [tupleByClass] returns when no path
    is cut. *)
Definition resolved (classes : list string) (s : store) (hidden : Z) : nat :=
  List.length (requested classes (joined s ColPath hidden)).

(** ** Vocabulary of the further properties *)

(** The keys of the schema hold: no two rows of [MEDIA] share an
    [imageID] or a [hash], no two rows of [CLASS] a [classID] or a label,
    and no pair occurs twice in [JUNCTION]. *)
Definition keys_ok (s : store) : Prop :=
  NoDup (map m_imageID (MEDIA s)) /\
  NoDup (map m_hash (MEDIA s)) /\
  NoDup (map c_classID (CLASS s)) /\
  NoDup (map c_class (CLASS s)) /\
  NoDup (JUNCTION s).

(** Every row of [JUNCTION] links a row of [MEDIA] to a row of [CLASS]. *)
Definition links_ok (s : store) : Prop :=
  forall j, In j (JUNCTION s) ->
    (exists i, In i (MEDIA s) /\ m_imageID i = j_imageID j) /\
    (exists c, In c (CLASS s) /\ c_classID c = j_classID j).

(** A value bound to a placeholder. *)
Inductive param := PInt (z : Z) | PText (t : string).

(** Python's [s * n] and the iteration over the characters of a [str]. *)
Fixpoint str_mul (s : string) (n : nat) : string :=
  match n with
  | O => EmptyString
  | S n' => (s ++ str_mul s n')%string
  end.

Fixpoint chars (s : string) : list string :=
  match s with
  | EmptyString => []
  | String a s' => String a EmptyString :: chars s'
  end.

(** [','.join('?' * len(paths))]. *)
Definition placeholders (paths : list string) : string :=
  Text.join (chars (str_mul "?" (List.length paths))).

(** The statement text and the parameters that [toggleVisibility] and
    [deleteFromDB] hand to [executeQuery]. *)
Definition toggleVisibility_query (paths : list string) : string :=
  ("UPDATE MEDIA SET hidden=? WHERE path IN (" ++ placeholders paths
   ++ ")")%string.

Definition toggleVisibility_params (hidden : Z) (paths : list string)
  : list param :=
  PInt hidden :: map PText paths.

Definition deleteFromDB_query (paths : list string) : string :=
  ("DELETE FROM MEDIA WHERE path IN (" ++ placeholders paths ++ ")")%string.

Definition deleteFromDB_params (paths : list string) : list param :=
  map PText paths.

(** Number of [?] in a statement text: the parameters the engine expects. *)
Fixpoint count_placeholders (q : string) : nat :=
  match q with
  | EmptyString => O
  | String a q' =>
      (if Ascii.eqb a "?"%char then 1 else 0)%nat + count_placeholders q'
  end.


(** An item under [c] is inserted and deleted by its path, then another
    item is inserted without any class; the grouping follows. *)
Definition delete_then_insert (p1 h1 c p2 h2 : string)
  : M (dict (list string)) :=
  insertIntoDB p1 [c] h1 ;;
  deleteFromDB [p1] ;;
  insertIntoDB p2 [] h2 ;;
  groupByClass 0 ColPath.


(** The path tuples handed to [deleteFile], in the order of the calls. *)
Fixpoint file_deletions (tr : list event) : list (list string) :=
  match tr with
  | [] => []
  | DeleteFile paths :: tr' => paths :: file_deletions tr'
  | _ :: tr' => file_deletions tr'
  end.


(** ** Facts about text *)

Lemma split_not_nil (s : string) : Text.split s <> [].
Proof.
  destruct s as [|a s]; simpl; [discriminate|].
  destruct (Ascii.eqb a Text.comma); [discriminate|].
  destruct (Text.split s); discriminate.
Qed.

Lemma split_comma_free (s : string) :
  Text.has_comma s = false -> Text.split s = [s].
Proof.
  induction s as [|a s IH]; simpl; intros H; [reflexivity|].
  apply orb_false_iff in H. destruct H as [Ha Hs].
  rewrite Ha, (IH Hs). reflexivity.
Qed.

Lemma split_has_comma (s : string) :
  Text.has_comma s = true -> (2 <= List.length (Text.split s))%nat.
Proof.
  induction s as [|a s IH]; simpl; intros H; [discriminate|].
  destruct (Ascii.eqb a Text.comma) eqn:Ha; simpl in *.
  - pose proof (split_not_nil s) as Hn.
    destruct (Text.split s); [contradiction|simpl; lia].
  - specialize (IH H). destruct (Text.split s); simpl in *; lia.
Qed.

Lemma split_pieces_comma_free (s : string) :
  Forall (fun p => Text.has_comma p = false) (Text.split s).
Proof.
  induction s as [|a s IH]; simpl.
  - constructor; [reflexivity|constructor].
  - destruct (Ascii.eqb a Text.comma) eqn:Ha.
    + constructor; [reflexivity|exact IH].
    + destruct (Text.split s) as [|w ws].
      * constructor; [simpl; rewrite Ha; reflexivity|constructor].
      * inversion IH; subst. constructor; [simpl; rewrite Ha|]; assumption.
Qed.

Lemma split_app_comma (a b : string) :
  Text.split (a ++ String Text.comma b)%string = Text.split a ++ Text.split b.
Proof.
  induction a as [|c a IH]; simpl.
  - reflexivity.
  - destruct (Ascii.eqb c Text.comma).
    + rewrite IH. reflexivity.
    + rewrite IH. pose proof (split_not_nil a) as Hn.
      destruct (Text.split a); [contradiction|reflexivity].
Qed.

Lemma split_join (vs : list string) :
  vs <> [] -> Text.split (Text.join vs) = flat_map Text.split vs.
Proof.
  induction vs as [|v vs IH]; intros Hn; [contradiction|].
  destruct vs as [|v' vs].
  - simpl. rewrite app_nil_r. reflexivity.
  - change (Text.join (v :: v' :: vs))
      with (v ++ String Text.comma (Text.join (v' :: vs)))%string.
    rewrite split_app_comma, IH by discriminate. reflexivity.
Qed.

Lemma flat_map_split_comma_free (vs : list string) :
  Forall comma_free vs -> flat_map Text.split vs = vs.
Proof.
  induction 1 as [|v vs Hv _ IH]; simpl; [reflexivity|].
  rewrite (split_comma_free v Hv), IH. reflexivity.
Qed.

Lemma mem_In (x : string) (t : list string) : Text.mem x t = true <-> In x t.
Proof.
  unfold Text.mem. rewrite existsb_exists. split.
  - intros [y [Hy He]]. apply String.eqb_eq in He. subst. exact Hy.
  - intros H. exists x. split; [exact H|apply String.eqb_refl].
Qed.

Lemma mem_not_In (x : string) (t : list string) :
  Text.mem x t = false <-> ~ In x t.
Proof.
  rewrite <- mem_In. destruct (Text.mem x t); split; congruence.
Qed.

(** ** Facts about grouping and dictionaries *)

Lemma distinct_In (x : string) (l : list string) :
  In x (distinct l) <-> In x l.
Proof.
  induction l as [|y l IH]; simpl; [tauto|].
  rewrite filter_In, IH, negb_true_iff, String.eqb_neq.
  destruct (string_dec y x) as [->|Hn]; [tauto|].
  split; [tauto|]. intros [H|H]; [contradiction|].
  right. split; [exact H|]. intros ->. contradiction.
Qed.

Lemma distinct_NoDup (l : list string) : NoDup (distinct l).
Proof.
  induction l as [|y l IH]; simpl; constructor.
  - rewrite filter_In, String.eqb_refl. simpl. intros [_ H]. discriminate.
  - apply NoDup_filter. exact IH.
Qed.

Lemma dict_set_fresh {V} (d : dict V) (k : string) (v : V) :
  ~ In k (dict_keys d) -> dict_set d k v = d ++ [(k, v)].
Proof.
  induction d as [|[k' v'] d IH]; simpl; intros Hn; [reflexivity|].
  destruct (String.eqb_spec k k') as [->|_]; [tauto|].
  rewrite IH by tauto. reflexivity.
Qed.

Lemma dict_fill {V} (f : string -> V) (rows : list (string * string))
    (d : dict V) :
  NoDup (dict_keys d ++ map fst rows) ->
  fold_left (fun d row => dict_set d (fst row) (f (snd row))) rows d
  = d ++ map (fun row => (fst row, f (snd row))) rows.
Proof.
  revert d. induction rows as [|[k v] rows IH]; simpl; intros d Hnd.
  - rewrite app_nil_r. reflexivity.
  - assert (Hk : ~ In k (dict_keys d)).
    { intros Hin. apply NoDup_remove_2 in Hnd. apply Hnd.
      apply in_or_app. left. exact Hin. }
    rewrite dict_set_fresh by exact Hk.
    rewrite IH.
    + rewrite <- app_assoc. reflexivity.
    + unfold dict_keys in *. rewrite map_app. simpl.
      rewrite <- app_assoc. simpl.
      apply (Permutation_NoDup (l := map fst d ++ k :: map fst rows));
        [|exact Hnd].
      apply Permutation_app_head. constructor. apply Permutation_refl.
Qed.

Lemma dict_get_In {V} (d : dict V) (k : string) (v : V) :
  NoDup (dict_keys d) -> In (k, v) d -> dict_get d k = Some v.
Proof.
  induction d as [|[k' v'] d IH]; simpl; intros Hnd Hin; [contradiction|].
  inversion Hnd as [|? ? Hk Hnd']; subst.
  destruct Hin as [Heq|Hin].
  - inversion Heq; subst. rewrite String.eqb_refl. reflexivity.
  - destruct (String.eqb_spec k k') as [->|_].
    + exfalso. apply Hk. apply (in_map fst) in Hin. exact Hin.
    + apply IH; assumption.
Qed.

Lemma groups_of_keys (rows : list (string * string)) :
  dict_keys (groups_of rows) = distinct (map fst rows).
Proof.
  unfold dict_keys, groups_of. rewrite map_map. simpl. apply map_id.
Qed.

Lemma groups_of_NoDup (rows : list (string * string)) :
  NoDup (dict_keys (groups_of rows)).
Proof. rewrite groups_of_keys. apply distinct_NoDup. Qed.

Lemma groups_of_get (rows : list (string * string)) (k : string)
    (t : list string) :
  dict_get (groups_of rows) k = Some t ->
  In k (map fst rows) /\
  t = flat_map Text.split
        (map snd (filter (fun r => String.eqb (fst r) k) rows)).
Proof.
  unfold groups_of. intros H.
  assert (G : forall ks, dict_get
             (map (fun k0 => (k0, flat_map Text.split
                 (map snd (filter (fun r => String.eqb (fst r) k0) rows)))) ks)
             k = Some t ->
           In k ks /\ t = flat_map Text.split
                 (map snd (filter (fun r => String.eqb (fst r) k) rows))).
  { induction ks as [|k0 ks IH]; simpl; [discriminate|].
    destruct (String.eqb_spec k k0) as [->|_].
    - intros E. inversion E. tauto.
    - intros E. destruct (IH E). tauto. }
  destruct (G _ H) as [Hin Ht]. rewrite distinct_In in Hin. tauto.
Qed.

Lemma groups_of_get_In (rows : list (string * string)) (k : string) :
  In k (map fst rows) ->
  dict_get (groups_of rows) k
  = Some (flat_map Text.split
            (map snd (filter (fun r => String.eqb (fst r) k) rows))).
Proof.
  intros Hin. apply dict_get_In; [apply groups_of_NoDup|].
  unfold groups_of. apply in_map_iff. exists k. split; [reflexivity|].
  apply distinct_In. exact Hin.
Qed.

(** Grouping and then flattening the requested groups only reorders the
    requested rows. *)
Lemma filter_key_split (k : string) (ks : list string)
    (rows : list (string * string)) :
  ~ In k ks ->
  Permutation
    (filter (fun r => Text.mem (fst r) (k :: ks)) rows)
    (filter (fun r => String.eqb (fst r) k) rows
     ++ filter (fun r => Text.mem (fst r) ks) rows).
Proof.
  intros Hk. induction rows as [|[k' v] rows IH]; simpl; [constructor|].
  destruct (String.eqb_spec k' k) as [->|Hne]; simpl.
  - apply mem_not_In in Hk. rewrite Hk. constructor. exact IH.
  - destruct (Text.mem k' ks); [|exact IH].
    apply Permutation_cons_app. exact IH.
Qed.

Lemma flat_map_groups_perm (ks : list string) (rows : list (string * string)) :
  NoDup ks ->
  Permutation
    (flat_map (fun k => filter (fun r => String.eqb (fst r) k) rows) ks)
    (filter (fun r => Text.mem (fst r) ks) rows).
Proof.
  induction 1 as [|k ks Hk _ IH]; simpl.
  - induction rows; simpl; [constructor|assumption].
  - rewrite (filter_key_split k ks rows Hk).
    apply Permutation_app_head. exact IH.
Qed.

Lemma filter_perm {A} (f : A -> bool) (l l' : list A) :
  Permutation l l' -> Permutation (filter f l) (filter f l').
Proof.
  induction 1 as [|x l l' _ IH|x y l|l l' l'' _ IH1 _ IH2]; simpl.
  - constructor.
  - destruct (f x); [constructor|]; exact IH.
  - destruct (f x), (f y); try apply Permutation_refl. constructor.
  - eapply Permutation_trans; eassumption.
Qed.

Lemma requested_groups (classes : list string)
    (rows : list (string * string)) :
  Permutation
    (flat_map snd (requested classes (groups_of rows)))
    (flat_map Text.split (map snd (requested classes rows))).
Proof.
  set (ks := filter (fun k => Text.mem k classes) (distinct (map fst rows))).
  assert (E : flat_map snd (requested classes (groups_of rows))
              = flat_map Text.split
                  (map snd (flat_map
                     (fun k => filter (fun r => String.eqb (fst r) k) rows)
                     ks))).
  { unfold requested, groups_of, ks.
    induction (distinct (map fst rows)) as [|k l IH]; simpl; [reflexivity|].
    destruct (Text.mem k classes); simpl; [|exact IH].
    rewrite IH, map_app, flat_map_app. reflexivity. }
  rewrite E. apply Permutation_flat_map. apply Permutation_map.
  rewrite flat_map_groups_perm
    by (apply NoDup_filter, distinct_NoDup).
  unfold requested.
  rewrite (filter_ext_in (fun r : string * string => Text.mem (fst r) ks)
                         (fun r => Text.mem (fst r) classes)).
  - apply Permutation_refl.
  - intros [k v] Hin. simpl.
    destruct (Text.mem k classes) eqn:Hc.
    + apply mem_In. unfold ks. apply filter_In. split; [|exact Hc].
      apply distinct_In. apply (in_map fst) in Hin. exact Hin.
    + apply mem_not_In. unfold ks. rewrite filter_In. intros [_ H].
      congruence.
Qed.

(** ** What each function computes *)

Lemma bind_ok {A B} (m : M A) (k : A -> M B) (w w' : world) (a : A) :
  m w = (inr a, w') -> bind m k w = k a w'.
Proof. unfold bind. intros ->. reflexivity. Qed.

Lemma for_each_pure {A B} (f : B -> A -> B) (l : list A) (acc : B)
    (w : world) :
  for_each l (fun b x => ret (f b x)) acc w = (inr (fold_left f l acc), w).
Proof.
  revert acc. induction l as [|x l IH]; intros acc; simpl; [reflexivity|].
  unfold bind, ret at 1. apply IH.
Qed.

Lemma executeQuery_select_groups (groupOf : column) (hidden : Z) (w : world) :
  executeQuery (SelectGroupConcat groupOf hidden) w
  = (inr (group_concat (plan eng (db w) groupOf hidden)),
     mkWorld (db w) (trace w ++ [Executed (SelectGroupConcat groupOf hidden)])).
Proof. reflexivity. Qed.

Lemma groupByClass_run (hidden : Z) (groupOf : column) (w : world) :
  groupByClass hidden groupOf w
  = (inr (groups_of (plan eng (db w) groupOf hidden)),
     mkWorld (db w) (trace w ++ [Executed (SelectGroupConcat groupOf hidden)])).
Proof.
  unfold groupByClass.
  rewrite (bind_ok _ _ _ _ _ (executeQuery_select_groups groupOf hidden w)).
  rewrite (for_each_pure
             (fun d row => dict_set d (fst row) (Text.split (snd row)))).
  f_equal. f_equal.
  set (rows := plan eng (db w) groupOf hidden).
  rewrite (dict_fill Text.split).
  - simpl. unfold group_concat, groups_of. rewrite map_map. simpl.
    apply map_ext_in. intros k Hk. f_equal.
    apply split_join. rewrite distinct_In in Hk.
    apply in_map_iff in Hk. destruct Hk as [[k' v] [Hk Hin]]. simpl in Hk.
    subst k'. intros Hnil.
    assert (Hf : In (k, v) (filter (fun r => String.eqb (fst r) k) rows)).
    { apply filter_In. split; [exact Hin|apply String.eqb_refl]. }
    apply (in_map snd) in Hf. rewrite Hnil in Hf. exact Hf.
  - simpl. unfold group_concat. rewrite map_map. simpl. rewrite map_id.
    apply distinct_NoDup.
Qed.

Lemma tuple_loop (classes : list string) (groups d : dict (list string))
    (res : list string) (w : world) :
  (forall k t, In (k, t) d -> dict_get groups k = Some t) ->
  for_each (dict_keys d)
    (fun res class_ =>
       if Text.mem class_ classes
       then (t <- subscript groups class_ ;; ret (res ++ t))
       else ret res) res w
  = (inr (res ++ flat_map snd (requested classes d)), w).
Proof.
  revert res. induction d as [|[k t] d IH]; simpl; intros res Hget.
  - rewrite app_nil_r. reflexivity.
  - assert (Hstep :
      (if Text.mem k classes
       then (t0 <- subscript groups k ;; ret (res ++ t0))
       else ret res) w
      = (inr (res ++ (if Text.mem k classes then t else [])), w)).
    { destruct (Text.mem k classes).
      - unfold bind, subscript. rewrite (Hget k t) by (left; reflexivity).
        reflexivity.
      - rewrite app_nil_r. reflexivity. }
    rewrite (bind_ok _ _ _ _ _ Hstep).
    rewrite IH by (intros; apply Hget; right; assumption).
    unfold requested. simpl.
    destruct (Text.mem k classes); simpl.
    + rewrite <- app_assoc. reflexivity.
    + rewrite app_nil_r. reflexivity.
Qed.

Lemma tupleByClass_run (classes : list string) (hidden : Z)
    (groupOf : column) (w : world) :
  tupleByClass classes hidden groupOf w
  = (inr (flat_map snd
            (requested classes
               (groups_of (plan eng (db w) groupOf hidden)))),
     mkWorld (db w) (trace w ++ [Executed (SelectGroupConcat groupOf hidden)])).
Proof.
  unfold tupleByClass.
  rewrite (bind_ok _ _ _ _ _ (groupByClass_run hidden groupOf w)).
  rewrite (tuple_loop classes _ _ []); [reflexivity|].
  intros k t Hin. apply dict_get_In; [apply groups_of_NoDup|exact Hin].
Qed.

Lemma too_many_fits (n : nat) : too_many_variables eng n = false <-> fits n.
Proof. unfold too_many_variables, fits. rewrite Z.ltb_ge. reflexivity. Qed.

Lemma too_many_not_fits (n : nat) :
  too_many_variables eng n = true <-> ~ fits n.
Proof. unfold too_many_variables, fits. rewrite Z.ltb_lt. lia. Qed.

Lemma fits_small (n : nat) : (n <= 2)%nat -> fits n.
Proof. unfold fits, variable_limit. lia. Qed.

Lemma fits_one (p : string) : fits (List.length [p]).
Proof. apply fits_small. simpl. lia. Qed.

Lemma fits_le (n m : nat) : (n <= m)%nat -> fits m -> fits n.
Proof. unfold fits. lia. Qed.

Lemma toggleVisibility_run (paths : list string) (hidden : Z) (w : world) :
  fits (1 + List.length paths) ->
  toggleVisibility paths hidden w
  = (inr tt,
     mkWorld (with_media (db w)
                (map (fun r => if path_in paths r then set_hidden hidden r
                               else r) (MEDIA (db w))))
             (trace w ++ [Executed (UpdateHidden hidden paths)])).
Proof.
  intros Hfit. apply too_many_fits in Hfit.
  unfold toggleVisibility, executeQuery, run_query. rewrite Hfit.
  reflexivity.
Qed.

Lemma toggleVisibility_refused (paths : list string) (hidden : Z)
    (w : world) :
  ~ fits (1 + List.length paths) ->
  toggleVisibility paths hidden w
  = (inl OperationalError,
     mkWorld (db w) (trace w ++ [Executed (UpdateHidden hidden paths)])).
Proof.
  intros Hfit. apply too_many_not_fits in Hfit.
  unfold toggleVisibility, executeQuery, run_query. rewrite Hfit.
  reflexivity.
Qed.

Lemma joined_In (s : store) (groupOf : column) (hidden : Z)
    (label v : string) :
  In (label, v) (joined s groupOf hidden) <->
  exists i, member s i label /\ m_hidden i = hidden /\
            column_text groupOf i = v.
Proof.
  unfold joined, member. rewrite in_flat_map. split.
  - intros [c [Hc H]]. apply in_flat_map in H. destruct H as [j [Hj H]].
    apply filter_In in Hj. destruct Hj as [Hj Hjc].
    apply in_map_iff in H. destruct H as [i [Heq Hi]].
    apply filter_In in Hi. destruct Hi as [Hi Hb].
    apply andb_true_iff in Hb. destruct Hb as [Hid Hh].
    apply Z.eqb_eq in Hjc, Hid, Hh. inversion Heq; subst.
    exists i. repeat split; try assumption.
    exists c, j. repeat split; auto.
  - intros [i [[Hi [c [j [Hc [Hj [Hl [Hjc Hji]]]]]]] [Hh Hv]]].
    exists c. split; [exact Hc|]. apply in_flat_map. exists j. split.
    + apply filter_In. split; [exact Hj|]. apply Z.eqb_eq. exact Hjc.
    + apply in_map_iff. exists i. split; [congruence|].
      apply filter_In. split; [exact Hi|].
      apply andb_true_iff. split; apply Z.eqb_eq; congruence.
Qed.

Lemma requested_In {V} (classes : list string) (rows : list (string * V))
    (k : string) (v : V) :
  In (k, v) (requested classes rows) <-> In (k, v) rows /\ In k classes.
Proof. unfold requested. rewrite filter_In, mem_In. reflexivity. Qed.

Lemma requested_perm {V} (classes : list string)
    (rows rows' : list (string * V)) :
  Permutation rows rows' ->
  Permutation (requested classes rows) (requested classes rows').
Proof. apply filter_perm. Qed.

(** The tuple [tupleByClass] returns is a rearrangement of the pieces of
    the values of the requested rows of the join. *)
Lemma tupleByClass_perm (classes : list string) (hidden : Z)
    (groupOf : column) (s : store) :
  Permutation
    (flat_map snd
       (requested classes (groups_of (plan eng s groupOf hidden))))
    (flat_map Text.split
       (map snd (requested classes (joined s groupOf hidden)))).
Proof.
  rewrite requested_groups.
  apply Permutation_flat_map, Permutation_map, requested_perm, plan_perm.
Qed.

(** ** Claims about the read tier *)

(** C8: for every catalog state and visibility filter, [tupleByClass]
    applied to class labels that have no member item (or that do not exist)
    returns the empty tuple and raises nothing; the relations are left as
    they were. *)
Theorem tupleByClass_no_member (classes : list string) (hidden : Z)
    (groupOf : column) (w : world) :
  (forall label i, In label classes -> ~ member (db w) i label) ->
  exists w', tupleByClass classes hidden groupOf w = (inr [], w') /\
             db w' = db w.
Proof.
  intros Hnone. rewrite tupleByClass_run.
  exists (mkWorld (db w)
            (trace w ++ [Executed (SelectGroupConcat groupOf hidden)])).
  split; [|reflexivity].
  f_equal. f_equal. apply Permutation_nil.
  apply Permutation_sym. rewrite tupleByClass_perm.
  assert (E : requested classes (joined (db w) groupOf hidden) = []).
  { destruct (requested classes (joined (db w) groupOf hidden))
      as [|[k v] l] eqn:Hr; [reflexivity|exfalso].
    assert (Hin : In (k, v) (requested classes (joined (db w) groupOf hidden)))
      by (rewrite Hr; left; reflexivity).
    apply requested_In in Hin. destruct Hin as [Hj Hk].
    apply joined_In in Hj. destruct Hj as [i [Hm _]].
    exact (Hnone k i Hk Hm). }
  rewrite E. constructor.
Qed.

(** C9: [groupByClass] hands back every projected value cut at its commas.
    For an item of the requested visibility that belongs to a class, the
    pieces of its value are entries of that class's tuple; a value that
    contains a comma gives at least two entries and is itself not an entry.
    The stored values are reproduced as they are when none of them contains
    a comma. *)
Theorem groupByClass_splits_at_commas (hidden : Z) (groupOf : column)
    (w : world) :
  exists groups,
    groupByClass hidden groupOf w
    = (inr groups,
       mkWorld (db w)
         (trace w ++ [Executed (SelectGroupConcat groupOf hidden)])) /\
    (forall i label,
        member (db w) i label -> m_hidden i = hidden ->
        exists t,
          dict_get groups label = Some t /\
          incl (Text.split (column_text groupOf i)) t /\
          (Text.has_comma (column_text groupOf i) = true ->
           (2 <= List.length (Text.split (column_text groupOf i)))%nat /\
           ~ In (column_text groupOf i) t)) /\
    ((forall i label,
         member (db w) i label -> m_hidden i = hidden ->
         comma_free (column_text groupOf i)) ->
     forall label t,
       dict_get groups label = Some t ->
       Permutation t
         (map snd (filter (fun r => String.eqb (fst r) label)
                          (joined (db w) groupOf hidden)))).
Proof.
  exists (groups_of (plan eng (db w) groupOf hidden)).
  split; [apply groupByClass_run|]. split.
  - intros i label Hm Hh.
    set (v := column_text groupOf i).
    assert (Hin : In (label, v) (plan eng (db w) groupOf hidden)).
    { apply (Permutation_in _ (Permutation_sym (plan_perm _ _ _))).
      apply joined_In. exists i. auto. }
    eexists. split.
    { apply groups_of_get_In. apply (in_map fst) in Hin. exact Hin. }
    assert (Hv : In v (map snd (filter (fun r => String.eqb (fst r) label)
                               (plan eng (db w) groupOf hidden)))).
    { apply in_map_iff. exists (label, v). split; [reflexivity|].
      apply filter_In. split; [exact Hin|apply String.eqb_refl]. }
    split.
    + intros p Hp. apply in_flat_map. exists v. split; assumption.
    + intros Hc. split; [apply split_has_comma; exact Hc|].
      intros Habs. apply in_flat_map in Habs. destruct Habs as [x [_ Hx]].
      pose proof (split_pieces_comma_free x) as Hf.
      rewrite Forall_forall in Hf. rewrite (Hf _ Hx) in Hc. discriminate.
  - intros Hfree label t Hget.
    apply groups_of_get in Hget. destruct Hget as [_ ->].
    rewrite flat_map_split_comma_free.
    + apply Permutation_map, filter_perm, plan_perm.
    + apply Forall_forall. intros v Hv.
      apply in_map_iff in Hv. destruct Hv as [[k v'] [Hs Hin]].
      simpl in Hs. subst v'. apply filter_In in Hin. destruct Hin as [Hin _].
      apply (Permutation_in _ (plan_perm _ _ _)) in Hin.
      apply joined_In in Hin. destruct Hin as [i [Hm [Hh Hv]]].
      rewrite <- Hv. exact (Hfree i k Hm Hh).
Qed.

(** ** Claims about visibility and deletion *)

Lemma deleteFromDB_run (paths : list string) (w : world) :
  fits (List.length paths) ->
  deleteFromDB paths w
  = (inr tt,
     mkWorld
       (mkStore
          (filter (fun r => negb (path_in paths r)) (MEDIA (db w)))
          (CLASS (db w))
          (if cascade eng
           then filter
                  (fun j => negb (existsb (fun r => m_imageID r =? j_imageID j)
                                    (filter (path_in paths) (MEDIA (db w)))))
                  (JUNCTION (db w))
           else JUNCTION (db w))
          (media_seq (db w)) (class_seq (db w)))
       (trace w ++ [Executed (DeleteMedia paths); DeleteFile paths])).
Proof.
  intros Hfit. apply too_many_fits in Hfit.
  unfold deleteFromDB, bind, executeQuery, deleteFile, emit, run_query.
  rewrite Hfit. simpl. rewrite <- app_assoc. reflexivity.
Qed.

Lemma deleteFromDB_refused (paths : list string) (w : world) :
  ~ fits (List.length paths) ->
  deleteFromDB paths w
  = (inl OperationalError,
     mkWorld (db w) (trace w ++ [Executed (DeleteMedia paths)])).
Proof.
  intros Hfit. apply too_many_not_fits in Hfit.
  unfold deleteFromDB, bind, executeQuery, deleteFile, emit, run_query.
  rewrite Hfit. reflexivity.
Qed.

Lemma fits_dec (n : nat) : fits n \/ ~ fits n.
Proof. unfold fits. lia. Qed.

Lemma toggleVisibility_trace (paths : list string) (hidden : Z) (w : world) :
  trace_of (toggleVisibility paths hidden w)
  = trace w ++ [Executed (UpdateHidden hidden paths)].
Proof.
  destruct (fits_dec (1 + List.length paths)) as [Hfit|Hfit];
    [rewrite (toggleVisibility_run _ _ _ Hfit)
    |rewrite (toggleVisibility_refused _ _ _ Hfit)]; reflexivity.
Qed.

Lemma filter_all {A} (f : A -> bool) (l : list A) :
  (forall x, In x l -> f x = true) -> filter f l = l.
Proof.
  induction l as [|x l IH]; simpl; intros H; [reflexivity|].
  rewrite (H x) by (left; reflexivity).
  rewrite IH by (intros; apply H; right; assumption). reflexivity.
Qed.

Lemma filter_none {A} (f : A -> bool) (l : list A) :
  (forall x, In x l -> f x = false) -> filter f l = [].
Proof.
  induction l as [|x l IH]; simpl; intros H; [reflexivity|].
  rewrite (H x) by (left; reflexivity).
  apply IH. intros; apply H; right; assumption.
Qed.

Lemma map_unchanged {A} (f : A -> A) (l : list A) :
  (forall x, In x l -> f x = x) -> map f l = l.
Proof.
  induction l as [|x l IH]; simpl; intros H; [reflexivity|].
  rewrite (H x) by (left; reflexivity).
  rewrite IH by (intros; apply H; right; assumption). reflexivity.
Qed.


(** C10: with an empty tuple of paths, [toggleVisibility] and
    [deleteFromDB] raise nothing and leave every relation as it was, and
    [deleteFromDB] still calls [deleteFile], with the empty tuple. *)
Theorem empty_paths_change_nothing (hidden : Z) (w : world) :
  toggleVisibility [] hidden w
  = (inr tt, mkWorld (db w) (trace w ++ [Executed (UpdateHidden hidden [])]))
  /\
  deleteFromDB [] w
  = (inr tt,
     mkWorld (db w) (trace w ++ [Executed (DeleteMedia []); DeleteFile []])).
Proof.
  split.
  - rewrite toggleVisibility_run by (apply fits_small; simpl; lia).
    f_equal. f_equal.
    unfold with_media. simpl. rewrite map_unchanged by reflexivity.
    destruct (db w); reflexivity.
  - rewrite deleteFromDB_run by (apply fits_small; simpl; lia).
    f_equal. f_equal.
    rewrite (filter_none (path_in [])) by reflexivity.
    rewrite !filter_all by reflexivity.
    destruct (cascade eng); destruct (db w); reflexivity.
Qed.

Lemma cleanDB_loop (rows acc : list string) (w : world) :
  for_each rows
    (fun paths path =>
       if negb (pathExist fs path) then ret (paths ++ [path]) else ret paths)
    acc w
  = (inr (acc ++ filter (fun p => negb (pathExist fs p)) rows), w).
Proof.
  revert acc. induction rows as [|p rows IH]; intros acc; simpl.
  - rewrite app_nil_r. reflexivity.
  - unfold bind at 1. destruct (pathExist fs p); simpl.
    + apply IH.
    + rewrite IH, <- app_assoc. reflexivity.
Qed.

Lemma stale_paths_In (s : store) (p : string) :
  In p (stale_paths s) <->
  exists r, In r (MEDIA s) /\ m_path r = p /\ pathExist fs p = false.
Proof.
  unfold stale_paths. rewrite filter_In, in_map_iff, negb_true_iff. split.
  - intros [[r [Hp Hr]] He]. exists r. auto.
  - intros [r [Hr [Hp He]]]. split; [exists r|]; auto.
Qed.

Lemma cleanDB_run (w : world) :
  cleanDB w
  = match stale_paths (db w) with
    | [] => (inr tt, mkWorld (db w) (trace w ++ [Executed SelectPaths]))
    | _ :: _ =>
        (print (stale_paths (db w)) ;; deleteFromDB (stale_paths (db w)))
          (mkWorld (db w) (trace w ++ [Executed SelectPaths]))
    end.
Proof.
  unfold cleanDB.
  assert (Hq : executeQuery SelectPaths w
               = (inr (map m_path (MEDIA (db w))),
                  mkWorld (db w) (trace w ++ [Executed SelectPaths])))
    by reflexivity.
  rewrite (bind_ok _ _ _ _ _ Hq).
  rewrite (bind_ok _ _ _ _ _ (cleanDB_loop _ [] _)). simpl.
  fold (stale_paths (db w)). destruct (stale_paths (db w)); reflexivity.
Qed.

Lemma stale_paths_nil (s : store) :
  stale_paths s = [] <->
  forall r, In r (MEDIA s) -> pathExist fs (m_path r) = true.
Proof.
  split.
  - intros Hs r Hr. destruct (pathExist fs (m_path r)) eqn:He; [reflexivity|].
    exfalso. assert (Hin : In (m_path r) (stale_paths s))
      by (apply stale_paths_In; exists r; auto).
    rewrite Hs in Hin. exact Hin.
  - intros Hall. destruct (stale_paths s) as [|p0 rest] eqn:Hs; [reflexivity|].
    exfalso. assert (Hin : In p0 (stale_paths s)) by (rewrite Hs; left; reflexivity).
    apply stale_paths_In in Hin. destruct Hin as [r [Hr [Hp He]]].
    rewrite <- Hp, (Hall r Hr) in He. discriminate.
Qed.

Lemma keep_present (s : store) :
  filter (fun r => negb (path_in (stale_paths s) r)) (MEDIA s)
  = filter (fun r => pathExist fs (m_path r)) (MEDIA s).
Proof.
  apply filter_ext_in. intros r Hr. unfold path_in.
  destruct (pathExist fs (m_path r)) eqn:He.
  - apply negb_true_iff. apply (proj2 (mem_not_In _ (stale_paths s))).
    intros Hin. apply stale_paths_In in Hin.
    destruct Hin as [_ [_ [_ Hf]]]. congruence.
  - apply negb_false_iff. apply (proj2 (mem_In _ (stale_paths s))).
    apply stale_paths_In. exists r. auto.
Qed.

(** What [cleanDB] does when some path is stale and the stale paths are
    within the limit on host parameters. *)
Lemma cleanDB_deletes (w : world) :
  stale_paths (db w) <> [] ->
  fits (List.length (stale_paths (db w))) ->
  cleanDB w
  = (inr tt,
     mkWorld
       (mkStore
          (filter (fun r => pathExist fs (m_path r)) (MEDIA (db w)))
          (CLASS (db w))
          (if cascade eng
           then filter
                  (fun j => negb (existsb (fun r => m_imageID r =? j_imageID j)
                                    (filter (path_in (stale_paths (db w)))
                                            (MEDIA (db w)))))
                  (JUNCTION (db w))
           else JUNCTION (db w))
          (media_seq (db w)) (class_seq (db w)))
       (trace w ++ [Executed SelectPaths; Print (stale_paths (db w));
                    Executed (DeleteMedia (stale_paths (db w)));
                    DeleteFile (stale_paths (db w))])).
Proof.
  intros Hne Hfit. rewrite cleanDB_run.
  destruct (stale_paths (db w)) as [|p0 rest] eqn:Hs; [congruence|].
  rewrite <- Hs in *. unfold bind at 1, print, emit. simpl.
  rewrite (deleteFromDB_run _ _ Hfit). simpl.
  rewrite keep_present, <- !app_assoc. reflexivity.
Qed.

(** What [cleanDB] does when the stale paths are more than the limit on
    host parameters allows: the paths are printed, the [DELETE] is refused,
    [deleteFile] is not reached. *)
Lemma cleanDB_refused (w : world) :
  ~ fits (List.length (stale_paths (db w))) ->
  cleanDB w
  = (inl OperationalError,
     mkWorld (db w)
       (trace w ++ [Executed SelectPaths; Print (stale_paths (db w));
                    Executed (DeleteMedia (stale_paths (db w)))])).
Proof.
  intros Hfit. rewrite cleanDB_run.
  destruct (stale_paths (db w)) as [|p0 rest] eqn:Hs.
  { exfalso. apply Hfit. apply fits_small. simpl. lia. }
  rewrite <- Hs in *. unfold bind at 1, print, emit. simpl.
  rewrite (deleteFromDB_refused _ _ Hfit). simpl.
  rewrite <- !app_assoc. reflexivity.
Qed.

Lemma cleanDB_nothing_stale (w : world) :
  (forall r, In r (MEDIA (db w)) -> pathExist fs (m_path r) = true) ->
  cleanDB w = (inr tt, mkWorld (db w) (trace w ++ [Executed SelectPaths])).
Proof.
  intros Hall. apply stale_paths_nil in Hall.
  rewrite cleanDB_run, Hall. reflexivity.
Qed.


(** When the values of the requested members carry no comma, the tuple
    of [tupleByClass] is a rearrangement of the values of the requested
    rows of the join. *)
Lemma tupleByClass_values (classes : list string) (hidden : Z)
    (groupOf : column) (s : store) :
  (forall i label,
      In label classes -> member s i label -> m_hidden i = hidden ->
      comma_free (column_text groupOf i)) ->
  Permutation
    (flat_map snd
       (requested classes (groups_of (plan eng s groupOf hidden))))
    (map snd (requested classes (joined s groupOf hidden))).
Proof.
  intros Hfree. rewrite tupleByClass_perm.
  rewrite flat_map_split_comma_free; [apply Permutation_refl|].
  apply Forall_forall. intros v Hv.
  apply in_map_iff in Hv. destruct Hv as [[k v'] [Hs Hin]]. simpl in Hs.
  subst v'. apply requested_In in Hin. destruct Hin as [Hin Hk].
  apply joined_In in Hin. destruct Hin as [i [Hm [Hh Hv]]].
  rewrite <- Hv. exact (Hfree i k Hk Hm Hh).
Qed.

Lemma tupleByClass_In (classes : list string) (hidden : Z)
    (groupOf : column) (s : store) (v : string) :
  (forall i label,
      In label classes -> member s i label -> m_hidden i = hidden ->
      comma_free (column_text groupOf i)) ->
  In v (flat_map snd
          (requested classes (groups_of (plan eng s groupOf hidden))))
  <-> exists i label,
        In label classes /\ member s i label /\ m_hidden i = hidden /\
        column_text groupOf i = v.
Proof.
  intros Hfree. pose proof (tupleByClass_values _ _ _ _ Hfree) as HP.
  split.
  - intros Hin. apply (Permutation_in _ HP) in Hin.
    apply in_map_iff in Hin. destruct Hin as [[k v'] [Hs Hin]]. simpl in Hs.
    subst v'. apply requested_In in Hin. destruct Hin as [Hin Hk].
    apply joined_In in Hin. destruct Hin as [i [Hm [Hh Hv]]].
    exists i, k. auto.
  - intros [i [label [Hl [Hm [Hh Hv]]]]].
    apply (Permutation_in _ (Permutation_sym HP)).
    apply in_map_iff. exists (label, v). split; [reflexivity|].
    apply requested_In. split; [|exact Hl].
    apply joined_In. exists i. auto.
Qed.

Lemma requested_one_label (classes : list string) (k : string)
    (vs : list string) :
  map snd (requested classes (map (fun v => (k, v)) vs))
  = if Text.mem k classes then vs else [].
Proof.
  unfold requested. induction vs as [|v vs IH]; simpl.
  - destruct (Text.mem k classes); reflexivity.
  - destruct (Text.mem k classes); simpl in *; [rewrite IH|]; auto.
Qed.

(** The requested rows of the join, class by class. *)
Lemma requested_by_class (classes : list string) (s : store)
    (groupOf : column) (hidden : Z) :
  map snd (requested classes (joined s groupOf hidden))
  = flat_map
      (fun c =>
         if Text.mem (c_class c) classes
         then flat_map
                (fun j =>
                   map (column_text groupOf)
                     (filter (fun i => (m_imageID i =? j_imageID j)
                                       && (m_hidden i =? hidden)) (MEDIA s)))
                (filter (fun j => j_classID j =? c_classID c) (JUNCTION s))
         else [])
      (CLASS s).
Proof.
  unfold joined. induction (CLASS s) as [|c cs IH]; simpl; [reflexivity|].
  unfold requested in *. rewrite filter_app, map_app, IH. f_equal.
  rewrite <- (requested_one_label classes (c_class c)). unfold requested.
  f_equal. f_equal.
  induction (filter (fun j => j_classID j =? c_classID c) (JUNCTION s))
    as [|j js IHj]; simpl; [reflexivity|].
  rewrite map_app, IHj, map_map. reflexivity.
Qed.

Lemma flat_map_ext_in {A B} (f g : A -> list B) (l : list A) :
  (forall a, In a l -> f a = g a) -> flat_map f l = flat_map g l.
Proof.
  induction l as [|a l IH]; simpl; intros H; [reflexivity|].
  rewrite (H a) by (left; reflexivity).
  rewrite IH by (intros; apply H; right; assumption). reflexivity.
Qed.

(** The length of the tuple of [tupleByClass] when no member path is cut. *)
Lemma tupleByClass_length (classes : list string) (hidden : Z) (s : store) :
  (forall i label,
      In label classes -> member s i label -> m_hidden i = hidden ->
      comma_free (m_path i)) ->
  List.length
    (flat_map snd (requested classes (groups_of (plan eng s ColPath hidden))))
  = resolved classes s hidden.
Proof.
  intros Hfree. unfold resolved.
  rewrite (Permutation_length (tupleByClass_values classes hidden ColPath s Hfree)).
  apply length_map.
Qed.

(** C2, as the code has it: [deleteByClass] resolves the paths of the
    visible ([hidden = 0]) members of the given classes, one per row of
    the join.  When they are no more than the engine's limit on host
    parameters allows, it deletes every row of [MEDIA], whatever its
    visibility, whose path is one of them; a hidden member whose path is
    not the path of a visible member stays.  When they are more, the
    [DELETE] is refused: [deleteByClass] raises
    [sqlite3.OperationalError], no relation changes and [deleteFile] is
    not called.  Stated for member paths without a comma. *)
Theorem deleteByClass_visible_members (classes : list string) (w : world) :
  (forall i label,
      In label classes -> member (db w) i label -> m_hidden i = 0 ->
      comma_free (m_path i)) ->
  exists paths,
    List.length paths = resolved classes (db w) 0 /\
    (forall p, In p paths <->
               exists i label,
                 In label classes /\ member (db w) i label /\
                 m_hidden i = 0 /\ m_path i = p) /\
    (fits (List.length paths) ->
     exists w',
       deleteByClass classes w = (inr tt, w') /\
       trace w' = trace w ++ [Executed (SelectGroupConcat ColPath 0);
                              Executed (DeleteMedia paths);
                              DeleteFile paths] /\
       (forall r, In r (MEDIA (db w')) <->
                  In r (MEDIA (db w)) /\ ~ In (m_path r) paths)) /\
    (~ fits (List.length paths) ->
     deleteByClass classes w
     = (inl OperationalError,
        mkWorld (db w)
          (trace w ++ [Executed (SelectGroupConcat ColPath 0);
                       Executed (DeleteMedia paths)]))).
Proof.
  intros Hfree.
  exists (flat_map snd
            (requested classes
               (groups_of (plan eng (db w) ColPath 0)))).
  split; [apply (tupleByClass_length classes 0 (db w) Hfree)|].
  split; [intros p; apply (tupleByClass_In classes 0 ColPath (db w) p Hfree)|].
  unfold deleteByClass.
  rewrite (bind_ok _ _ _ _ _ (tupleByClass_run classes 0 ColPath w)).
  split; intros Hfit.
  - rewrite (deleteFromDB_run _ _ Hfit).
    eexists. split; [reflexivity|]. simpl.
    split; [rewrite <- app_assoc; reflexivity|].
    intros r. rewrite filter_In, negb_true_iff. unfold path_in.
    rewrite mem_not_In. reflexivity.
  - rewrite (deleteFromDB_refused _ _ Hfit). simpl.
    rewrite <- app_assoc. reflexivity.
Qed.

Lemma member_with_media (s : store) (f : MediaRow -> MediaRow)
    (i' : MediaRow) (label : string) :
  (forall r, m_imageID (f r) = m_imageID r) ->
  member (with_media s (map f (MEDIA s))) i' label <->
  exists i, member s i label /\ i' = f i.
Proof.
  intros Hid. unfold member. simpl. rewrite in_map_iff. split.
  - intros [[i [Hf Hi]] [c [j [Hc [Hj [Hl [Hjc Hji]]]]]]].
    exists i. split; [|auto]. split; [exact Hi|].
    exists c, j. subst i'. rewrite Hid in Hji. auto.
  - intros [i [[Hi [c [j [Hc [Hj [Hl [Hjc Hji]]]]]]] ->]].
    split; [exists i; auto|]. exists c, j. rewrite Hid. auto.
Qed.

Lemma with_media_twice (s : store) (rows : list MediaRow) :
  with_media (with_media s rows) (MEDIA s) = s.
Proof. destruct s; reflexivity. Qed.

(** The rows of the join for classes whose members all move from one
    visibility to another: the same before, at the first visibility, and
    after, at the second. *)
Lemma requested_toggled (classes : list string) (s : store)
    (f : MediaRow -> MediaRow) (from to : Z) :
  (forall r, m_imageID (f r) = m_imageID r) ->
  (forall r, m_path (f r) = m_path r) ->
  (forall i label,
      In label classes -> member s i label ->
      m_hidden i = from /\ m_hidden (f i) = to) ->
  map snd (requested classes
             (joined (with_media s (map f (MEDIA s))) ColPath to))
  = map snd (requested classes (joined s ColPath from)).
Proof.
  intros Hid Hpath Hmove. rewrite !requested_by_class.
  unfold with_media. simpl.
  apply flat_map_ext_in. intros c Hc.
  destruct (Text.mem (c_class c) classes) eqn:Hreq; [|reflexivity].
  apply mem_In in Hreq.
  apply flat_map_ext_in. intros j Hj.
  apply filter_In in Hj. destruct Hj as [Hj Hjc]. apply Z.eqb_eq in Hjc.
  assert (Hsub : forall l,
             (forall i, In i l -> In i (MEDIA s)) ->
             map m_path
               (filter (fun i => (m_imageID i =? j_imageID j)
                                 && (m_hidden i =? to)) (map f l))
             = map m_path
                 (filter (fun i => (m_imageID i =? j_imageID j)
                                   && (m_hidden i =? from)) l)).
  { induction l as [|i l IH]; intros Hl; [reflexivity|]. simpl.
    rewrite Hid. destruct (m_imageID i =? j_imageID j) eqn:E; simpl.
    - apply Z.eqb_eq in E.
      destruct (Hmove i (c_class c) Hreq) as [Hf Ht].
      { split; [apply Hl; left; reflexivity|]. exists c, j. auto. }
      rewrite Hf, Ht, !Z.eqb_refl. simpl. rewrite Hpath, IH; [reflexivity|].
      intros; apply Hl; right; assumption.
    - apply IH. intros; apply Hl; right; assumption. }
  apply Hsub. auto.
Qed.

(** C4, as the code has it: when every row of [MEDIA] that carries the
    path of a member of the given classes is visible (the members
    themselves and the rows that share a path with one), and the value
    bound to [hidden] and the paths of the members, one per row of the
    join, are no more than the engine's limit on host parameters allows,
    [hideByClass] followed by [unhideByClass] on the same classes raises
    nothing and brings back the relations as they were, hence the same
    visible items.  Above the limit the [UPDATE] of [hideByClass] is
    refused: [sqlite3.OperationalError] is raised and the relations are
    as they were.  Stated for member paths without a comma. *)
Theorem hide_then_unhide_restores (classes : list string) (w : world) :
  (forall i label,
      In label classes -> member (db w) i label ->
      comma_free (m_path i) /\
      forall r, In r (MEDIA (db w)) -> m_path r = m_path i ->
                m_hidden r = 0) ->
  (fits (1 + resolved classes (db w) 0) ->
   exists w',
     (hideByClass classes ;; unhideByClass classes) w = (inr tt, w') /\
     db w' = db w /\
     visible_items (db w') = visible_items (db w)) /\
  (~ fits (1 + resolved classes (db w) 0) ->
   exists w',
     (hideByClass classes ;; unhideByClass classes) w
     = (inl OperationalError, w') /\
     db w' = db w).
Proof.
  intros H.
  set (P0 := flat_map snd
               (requested classes
                  (groups_of (plan eng (db w) ColPath 0)))).
  assert (L0 : List.length P0 = resolved classes (db w) 0).
  { apply tupleByClass_length. intros i label Hl Hm _. apply (H i label Hl Hm). }
  split; intros Hfit; rewrite <- L0 in Hfit.
  2:{ eexists. unfold hideByClass. unfold bind at 1.
      rewrite (bind_ok _ _ _ _ _ (tupleByClass_run classes 0 ColPath w)).
      fold P0. rewrite (toggleVisibility_refused _ _ _ Hfit).
      split; reflexivity. }
  set (f := fun r => if path_in P0 r then set_hidden 1 r else r).
  set (s1 := with_media (db w) (map f (MEDIA (db w)))).
  set (P1 := flat_map snd
               (requested classes (groups_of (plan eng s1 ColPath 1)))).
  set (g := fun r => if path_in P1 r then set_hidden 0 r else r).
  assert (Hvis : forall i label,
             In label classes -> member (db w) i label -> m_hidden i = 0).
  { intros i label Hl Hm. destruct (H i label Hl Hm) as [_ Hr].
    apply Hr; [apply Hm|reflexivity]. }
  assert (A : forall p, In p P0 <->
             exists i label, In label classes /\ member (db w) i label /\
                             m_path i = p).
  { intros p. unfold P0.
    rewrite (tupleByClass_In classes 0 ColPath (db w) p)
      by (intros i label Hl Hm _; apply (H i label Hl Hm)).
    split.
    - intros [i [label [Hl [Hm [_ Hp]]]]]. exists i, label. auto.
    - intros [i [label [Hl [Hm Hp]]]]. exists i, label.
      split; [exact Hl|]. split; [exact Hm|].
      split; [exact (Hvis i label Hl Hm)|exact Hp]. }
  assert (Hfid : forall r, m_imageID (f r) = m_imageID r).
  { intros r. unfold f. destruct (path_in P0 r); reflexivity. }
  assert (Hfpath : forall r, m_path (f r) = m_path r).
  { intros r. unfold f. destruct (path_in P0 r); reflexivity. }
  assert (Hf : forall i label,
             In label classes -> member (db w) i label ->
             f i = set_hidden 1 i).
  { intros i label Hl Hm. unfold f, path_in.
    assert (Hin : In (m_path i) P0) by (apply A; exists i, label; auto).
    apply mem_In in Hin. rewrite Hin. reflexivity. }
  assert (B : forall i' label,
             In label classes ->
             (member s1 i' label <->
              exists i, member (db w) i label /\ i' = set_hidden 1 i)).
  { intros i' label Hl. unfold s1. rewrite (member_with_media _ f) by exact Hfid.
    split; intros [i [Hm Hi]]; exists i; (split; [exact Hm|]);
      rewrite Hi; [apply (Hf i label)|symmetry; apply (Hf i label)]; auto. }
  assert (L1 : List.length P1 = List.length P0).
  { rewrite L0. unfold P1. rewrite tupleByClass_length.
    - unfold resolved.
      rewrite <- (length_map snd), <- (length_map snd (requested _ (joined (db w) _ _))).
      unfold s1. f_equal.
      apply (requested_toggled classes (db w) f 0 1 Hfid Hfpath).
      intros i label Hl Hm. split; [exact (Hvis i label Hl Hm)|].
      rewrite (Hf i label Hl Hm). reflexivity.
    - intros i' label Hl Hm _. apply (B i' label Hl) in Hm.
      destruct Hm as [i [Hm ->]]. apply (H i label Hl Hm). }
  assert (Hfit1 : fits (1 + List.length P1)) by (rewrite L1; exact Hfit).
  assert (Hrun : exists tr,
    (hideByClass classes ;; unhideByClass classes) w
    = (inr tt, mkWorld (with_media s1 (map g (MEDIA s1))) tr)).
  { eexists. unfold hideByClass, unhideByClass.
    unfold bind at 1.
    rewrite (bind_ok _ _ _ _ _ (tupleByClass_run classes 0 ColPath w)).
    fold P0. rewrite (toggleVisibility_run _ _ _ Hfit).
    erewrite bind_ok by apply tupleByClass_run.
    simpl db. fold f. fold s1. fold P1.
    rewrite (toggleVisibility_run _ _ _ Hfit1). reflexivity. }
  destruct Hrun as [tr Hrun]. eexists. split; [exact Hrun|].
  cut (with_media s1 (map g (MEDIA s1)) = db w).
  { intros Hdb.
    change (with_media s1 (map g (MEDIA s1)) = db w /\
            visible_items (with_media s1 (map g (MEDIA s1)))
            = visible_items (db w)).
    rewrite Hdb. split; reflexivity. }
  assert (C : forall p, In p P1 <-> In p P0).
  { intros p. unfold P1.
    rewrite (tupleByClass_In classes 1 ColPath s1 p).
    - rewrite A. split.
      + intros [i' [label [Hl [Hm [_ Hp]]]]].
        apply (B i' label Hl) in Hm. destruct Hm as [i [Hm ->]].
        exists i, label. auto.
      + intros [i [label [Hl [Hm Hp]]]].
        exists (set_hidden 1 i), label.
        split; [exact Hl|]. split; [|split; [reflexivity|exact Hp]].
        apply (B _ label Hl). exists i. auto.
    - intros i' label Hl Hm _. apply (B i' label Hl) in Hm.
      destruct Hm as [i [Hm ->]]. apply (H i label Hl Hm). }
  assert (D : map g (MEDIA s1) = MEDIA (db w)).
  { unfold s1. simpl. rewrite map_map. apply map_unchanged.
    intros r Hr. unfold g, f, path_in.
    destruct (Text.mem (m_path r) P0) eqn:Hm.
    - simpl. assert (Hm1 : Text.mem (m_path r) P1 = true)
        by (apply mem_In, C, mem_In; exact Hm).
      rewrite Hm1. apply mem_In, A in Hm.
      destruct Hm as [i [label [Hl [Hmem Hp]]]].
      destruct (H i label Hl Hmem) as [_ Hz].
      specialize (Hz r Hr (eq_sym Hp)).
      destruct r; simpl in *. subst. reflexivity.
    - assert (Hm1 : Text.mem (m_path r) P1 = false).
      { apply mem_not_In. rewrite C. apply mem_not_In. exact Hm. }
      rewrite Hm1. reflexivity. }
  rewrite D. unfold s1. apply with_media_twice.
Qed.

(** ** Claims about [insertIntoDB] *)

Lemma junction_eqb_eq (a b : JunctionRow) : junction_eqb a b = true <-> a = b.
Proof.
  unfold junction_eqb. rewrite andb_true_iff, !Z.eqb_eq.
  destruct a, b; simpl. split; [intros [-> ->]; reflexivity|].
  intros E; inversion E; auto.
Qed.

Lemma existsb_junction (row : JunctionRow) (l : list JunctionRow) :
  existsb (junction_eqb row) l = true <-> In row l.
Proof.
  rewrite existsb_exists. split.
  - intros [x [Hx He]]. apply junction_eqb_eq in He. subst. exact Hx.
  - intros H. exists row. split; [exact H|apply junction_eqb_eq; reflexivity].
Qed.

Lemma NoDup_snoc {A} (l : list A) (x : A) :
  NoDup l -> ~ In x l -> NoDup (l ++ [x]).
Proof.
  intros Hl Hx. apply (Permutation_NoDup (l := x :: l)).
  - apply Permutation_cons_append.
  - constructor; assumption.
Qed.

Lemma existsb_filter_first {A} (f : A -> bool) (l : list A) :
  existsb f l = true -> exists x rest, filter f l = x :: rest.
Proof.
  induction l as [|y l IH]; simpl; [discriminate|].
  destruct (f y); simpl; [intros _; eauto|exact IH].
Qed.

(** One round of the loop of [insertIntoDB]: the label is found or
    created, the pair is linked unless it already is; nothing is raised. *)
Lemma assign_class_ok (imageID : Z) (className : string) (w : world) :
  exists classID w',
    assign_class imageID tt className w = (inr tt, w') /\
    MEDIA (db w') = MEDIA (db w) /\
    In (mkJunction imageID classID) (JUNCTION (db w')) /\
    (exists c, In c (CLASS (db w')) /\ c_class c = className /\
               c_classID c = classID) /\
    (In (mkJunction imageID classID) (JUNCTION (db w)) ->
     JUNCTION (db w') = JUNCTION (db w)) /\
    (~ In (mkJunction imageID classID) (JUNCTION (db w)) ->
     JUNCTION (db w') = JUNCTION (db w) ++ [mkJunction imageID classID]) /\
    (existsb (fun c => String.eqb (c_class c) className) (CLASS (db w)) = true
     -> CLASS (db w') = CLASS (db w)) /\
    (existsb (fun c => String.eqb (c_class c) className) (CLASS (db w)) = false
     -> CLASS (db w') = CLASS (db w) ++ [mkClass classID className]).
Proof.
  unfold assign_class, try_except, bind, executeQuery. simpl.
  destruct (existsb (fun c => String.eqb (c_class c) className)
                    (CLASS (db w))) eqn:Hc; simpl.
  - destruct (existsb_filter_first _ _ Hc) as [c0 [rest Hf]].
    rewrite Hf. simpl.
    assert (Hc0 : In c0 (CLASS (db w)) /\ c_class c0 = className).
    { assert (Hin : In c0 (filter (fun c => String.eqb (c_class c) className)
                                  (CLASS (db w))))
        by (rewrite Hf; left; reflexivity).
      apply filter_In in Hin. destruct Hin as [Hin He].
      apply String.eqb_eq in He. auto. }
    exists (c_classID c0).
    destruct (existsb (junction_eqb (mkJunction imageID (c_classID c0)))
                      (JUNCTION (db w))) eqn:Hj; simpl;
      eexists; (split; [reflexivity|]); simpl.
    + apply existsb_junction in Hj.
      repeat split; auto; try (exists c0; tauto); try tauto; discriminate.
    + assert (Hn : ~ In (mkJunction imageID (c_classID c0)) (JUNCTION (db w)))
        by (rewrite <- existsb_junction; congruence).
      repeat split; auto; try (exists c0; tauto); try tauto;
        try discriminate.
      apply in_or_app. right. left. reflexivity.
  - set (cid := new_rowid (map c_classID (CLASS (db w))) (class_seq (db w))).
    exists cid.
    destruct (existsb (junction_eqb (mkJunction imageID cid))
                      (JUNCTION (db w))) eqn:Hj; simpl;
      eexists; (split; [reflexivity|]); simpl.
    + apply existsb_junction in Hj.
      repeat split; auto; try tauto; try discriminate.
      exists (mkClass cid className). split; [|auto].
      apply in_or_app. right. left. reflexivity.
    + assert (Hn : ~ In (mkJunction imageID cid) (JUNCTION (db w)))
        by (rewrite <- existsb_junction; congruence).
      repeat split; auto; try tauto; try discriminate.
      * apply in_or_app. right. left. reflexivity.
      * exists (mkClass cid className). split; [|auto].
        apply in_or_app. right. left. reflexivity.
Qed.

Lemma assign_loop_ok (imageID : Z) (imgClass : list string) (w : world) :
  exists w',
    for_each imgClass (assign_class imageID) tt w = (inr tt, w') /\
    MEDIA (db w') = MEDIA (db w) /\
    (NoDup (JUNCTION (db w)) -> NoDup (JUNCTION (db w'))).
Proof.
  revert w. induction imgClass as [|c l IH]; intros w; simpl.
  - exists w. repeat split; auto.
  - destruct (assign_class_ok imageID c w)
      as [cid [w1 [Hrun [Hm [_ [_ [Hsame [Hnew _]]]]]]]].
    destruct (IH w1) as [w2 [Hrun2 [Hm2 Hnd2]]].
    exists w2. rewrite (bind_ok _ _ _ _ _ Hrun). split; [exact Hrun2|].
    split; [congruence|]. intros Hnd. apply Hnd2.
    destruct (existsb (junction_eqb (mkJunction imageID cid))
                      (JUNCTION (db w))) eqn:Hj.
    + apply existsb_junction in Hj. rewrite (Hsame Hj). exact Hnd.
    + assert (Hn : ~ In (mkJunction imageID cid) (JUNCTION (db w)))
        by (rewrite <- existsb_junction; congruence).
      rewrite (Hnew Hn). apply NoDup_snoc; assumption.
Qed.

Lemma insertIntoDB_existing (file : string) (imgClass : list string)
    (imgHash : string) (w : world) :
  existsb (fun r => String.eqb (m_hash r) imgHash) (MEDIA (db w)) = true ->
  insertIntoDB file imgClass imgHash w
  = (inr tt,
     mkWorld
       (with_media (db w)
          (map (fun r => if String.eqb (m_hash r) imgHash
                         then set_path file r else r) (MEDIA (db w))))
       (trace w ++ [Executed (InsertMedia imgHash file);
                    Executed (UpdatePath file imgHash)])).
Proof.
  intros He. unfold insertIntoDB, try_except, bind, executeQuery. simpl.
  rewrite He. simpl. rewrite <- app_assoc. reflexivity.
Qed.

Lemma insertIntoDB_fresh (file : string) (imgClass : list string)
    (imgHash : string) (w : world) :
  existsb (fun r => String.eqb (m_hash r) imgHash) (MEDIA (db w)) = false ->
  exists w',
    insertIntoDB file imgClass imgHash w = (inr tt, w') /\
    MEDIA (db w')
    = MEDIA (db w)
      ++ [mkMedia (new_rowid (map m_imageID (MEDIA (db w))) (media_seq (db w)))
                  imgHash file 0] /\
    (NoDup (JUNCTION (db w)) -> NoDup (JUNCTION (db w'))).
Proof.
  intros He. unfold insertIntoDB, try_except.
  set (id := new_rowid (map m_imageID (MEDIA (db w))) (media_seq (db w))).
  set (w1 := mkWorld
               (mkStore (MEDIA (db w) ++ [mkMedia id imgHash file 0])
                        (CLASS (db w)) (JUNCTION (db w))
                        (new_seq (media_seq (db w)) id) (class_seq (db w)))
               (trace w ++ [Executed (InsertMedia imgHash file)])).
  assert (Hq : executeQuery (InsertMedia imgHash file) w = (inr id, w1)).
  { unfold executeQuery. simpl. rewrite He. reflexivity. }
  rewrite (bind_ok _ _ _ _ _ Hq).
  destruct (assign_loop_ok id imgClass w1) as [w2 [Hrun [Hm Hnd]]].
  rewrite Hrun. exists w2. split; [reflexivity|]. split; [exact Hm|exact Hnd].
Qed.

(** [insertIntoDB] always returns: both conflicts are caught. *)
Lemma insertIntoDB_total (file : string) (imgClass : list string)
    (imgHash : string) (w : world) :
  exists w',
    insertIntoDB file imgClass imgHash w = (inr tt, w') /\
    (NoDup (JUNCTION (db w)) -> NoDup (JUNCTION (db w'))).
Proof.
  destruct (existsb (fun r => String.eqb (m_hash r) imgHash) (MEDIA (db w)))
    eqn:He.
  - rewrite (insertIntoDB_existing _ _ _ _ He). eexists.
    split; [reflexivity|]. simpl. auto.
  - destruct (insertIntoDB_fresh file imgClass imgHash w He)
      as [w' [Hrun [_ Hnd]]].
    exists w'. auto.
Qed.

(** X5: re-inserting a known hash: the rows of that hash take the new
    path, nothing else changes in [MEDIA], the class list is not looked at
    and [CLASS] and [JUNCTION] stay as they were. *)
Lemma insertIntoDB_known_hash (file : string) (imgClass : list string)
    (imgHash : string) (w : world) :
  (exists r, In r (MEDIA (db w)) /\ m_hash r = imgHash) ->
  exists w',
    insertIntoDB file imgClass imgHash w = (inr tt, w') /\
    CLASS (db w') = CLASS (db w) /\
    JUNCTION (db w') = JUNCTION (db w) /\
    Forall2
      (fun r r' =>
         m_imageID r' = m_imageID r /\ m_hash r' = m_hash r /\
         m_hidden r' = m_hidden r /\
         (m_hash r = imgHash -> m_path r' = file) /\
         (m_hash r <> imgHash -> r' = r))
      (MEDIA (db w)) (MEDIA (db w')).
Proof.
  intros [r0 [Hr0 Hh0]].
  rewrite insertIntoDB_existing.
  - eexists. split; [reflexivity|]. simpl. repeat split.
    clear. induction (MEDIA (db w)) as [|r l IH]; simpl; constructor;
      [|exact IH].
    destruct (String.eqb_spec (m_hash r) imgHash) as [E|E]; simpl;
      repeat split; auto; intros; congruence.
  - apply existsb_exists. exists r0. split; [exact Hr0|].
    apply String.eqb_eq. exact Hh0.
Qed.

Lemma new_rowid_empty : new_rowid [] 0 = 1.
Proof. unfold new_rowid. destruct (autoincrement eng); reflexivity. Qed.

Lemma new_rowid_second : new_rowid [1] (new_seq 0 1) = 2.
Proof. unfold new_rowid, new_seq. destruct (autoincrement eng); reflexivity. Qed.

Lemma two_items_one_class_run (p1 h1 p2 h2 c : string) :
  h1 <> h2 ->
  exists tr,
    run (two_items_one_class p1 h1 p2 h2 c) empty_store
    = (inr tt,
       mkWorld
         (mkStore [mkMedia 1 h1 p1 0; mkMedia 2 h2 p2 0]
                  [mkClass 1 c]
                  [mkJunction 1 1; mkJunction 2 1]
                  (new_seq (new_seq 0 1) 2) (new_seq 0 1))
         tr).
Proof.
  intros Hne. eexists.
  unfold run, two_items_one_class, insertIntoDB, try_except, bind,
    assign_class, try_except, bind, executeQuery.
  simpl. rewrite new_rowid_empty. simpl.
  rewrite (proj2 (String.eqb_neq h1 h2) Hne). simpl.
  rewrite new_rowid_second. simpl. unfold bind, ret. simpl.
  rewrite String.eqb_refl. simpl. rewrite String.eqb_refl. simpl.
  reflexivity.
Qed.

(** C7: from the empty catalog, two inserts with distinct hashes and the
    same label leave exactly one row in [CLASS] and exactly two rows in
    [JUNCTION].  On every insert, a pair that is already linked is
    ignored: the statement raises nothing and changes nothing, and
    [insertIntoDB] returns normally and keeps [JUNCTION] free of repeated
    pairs. *)
Theorem insertIntoDB_one_row_per_pair (p1 h1 p2 h2 c : string) :
  h1 <> h2 ->
  (exists w',
      run (two_items_one_class p1 h1 p2 h2 c) empty_store = (inr tt, w') /\
      CLASS (db w') = [mkClass 1 c] /\
      JUNCTION (db w') = [mkJunction 1 1; mkJunction 2 1]) /\
  (forall imageID classID s,
      In (mkJunction imageID classID) (JUNCTION s) ->
      run_query (InsertOrIgnoreJunction imageID classID) s = inr (tt, s)) /\
  (forall file imgClass imgHash w,
      NoDup (JUNCTION (db w)) ->
      exists w',
        insertIntoDB file imgClass imgHash w = (inr tt, w') /\
        NoDup (JUNCTION (db w'))).
Proof.
  intros Hne. split; [|split].
  - destruct (two_items_one_class_run p1 h1 p2 h2 c Hne) as [tr Hrun].
    eexists. split; [exact Hrun|]. split; reflexivity.
  - intros imageID classID s Hin. simpl.
    apply existsb_junction in Hin. rewrite Hin. reflexivity.
  - intros file imgClass imgHash w Hnd.
    destruct (insertIntoDB_total file imgClass imgHash w) as [w' [Hrun H]].
    exists w'. auto.
Qed.

Lemma plan_singleton (s : store) (groupOf : column) (hidden : Z)
    (row : string * string) :
  joined s groupOf hidden = [row] -> plan eng s groupOf hidden = [row].
Proof.
  intros Hj. apply Permutation_length_1_inv, Permutation_sym.
  rewrite <- Hj. apply plan_perm.
Qed.

(** The round trip of a re-insert from the empty catalog: the only group
    is [c], and it holds the pieces of the new path. *)
Lemma reinsert_then_group_run (p1 p2 c h : string) :
  result_of (run (reinsert_then_group p1 p2 c h) empty_store)
  = inr [(c, Text.split p2)].
Proof.
  unfold run, reinsert_then_group.
  assert (H1 : exists tr,
    insertIntoDB p1 [c] h (mkWorld empty_store [])
    = (inr tt,
       mkWorld (mkStore [mkMedia 1 h p1 0] [mkClass 1 c] [mkJunction 1 1]
                        (new_seq 0 1) (new_seq 0 1)) tr)).
  { eexists.
    unfold insertIntoDB, try_except, bind, assign_class, try_except, bind,
      executeQuery.
    simpl. rewrite new_rowid_empty. simpl. unfold bind, ret. simpl.
    reflexivity. }
  destruct H1 as [tr1 H1]. rewrite (bind_ok _ _ _ _ _ H1).
  erewrite bind_ok
    by (apply insertIntoDB_existing; simpl; rewrite String.eqb_refl;
        reflexivity).
  rewrite groupByClass_run. unfold result_of. simpl.
  rewrite String.eqb_refl.
  rewrite (plan_singleton _ _ _ (c, p2)) by reflexivity.
  unfold groups_of. simpl.
  rewrite String.eqb_refl. simpl. rewrite app_nil_r. reflexivity.
Qed.

Lemma reinsert_then_group_comma_free (p1 p2 c h : string) :
  comma_free p2 ->
  result_of (run (reinsert_then_group p1 p2 c h) empty_store)
  = inr [(c, [p2])].
Proof.
  intros Hfree. rewrite reinsert_then_group_run.
  rewrite (split_comma_free p2 Hfree). reflexivity.
Qed.

(** ** Repeated values in [tupleByClass] *)

Lemma NoDup_map_on {A B} (f : A -> B) (l : list A) :
  NoDup l ->
  (forall x y, In x l -> In y l -> f x = f y -> x = y) ->
  NoDup (map f l).
Proof.
  induction 1 as [|x l Hx _ IH]; simpl; intros Hinj; constructor.
  - intros Hin. apply in_map_iff in Hin. destruct Hin as [y [Hy Hin]].
    assert (y = x) by (apply Hinj; auto). subst. contradiction.
  - apply IH. intros; apply Hinj; auto.
Qed.

Lemma NoDup_flat_map_on {A B} (f : A -> list B) (l : list A) :
  NoDup l ->
  (forall x, In x l -> NoDup (f x)) ->
  (forall x y b, In x l -> In y l -> In b (f x) -> In b (f y) -> x = y) ->
  NoDup (flat_map f l).
Proof.
  induction 1 as [|x l Hx _ IH]; simpl; intros Hnd Hdis; [constructor|].
  apply NoDup_app.
  - apply Hnd. left. reflexivity.
  - apply IH; intros; [apply Hnd|eapply Hdis]; eauto.
  - intros b Hb Hin. apply in_flat_map in Hin. destruct Hin as [y [Hy Hin]].
    assert (x = y) by (apply (Hdis x y b); auto). subst. contradiction.
Qed.

Lemma NoDup_map_eq {A B} (f : A -> B) (l : list A) (x y : A) :
  NoDup (map f l) -> In x l -> In y l -> f x = f y -> x = y.
Proof.
  induction l as [|a l IH]; simpl; intros Hnd Hx Hy E; [contradiction|].
  inversion Hnd as [|? ? Ha Hl]; subst.
  destruct Hx as [->|Hx], Hy as [->|Hy]; auto.
  - exfalso. apply Ha. rewrite E. apply in_map. exact Hy.
  - exfalso. apply Ha. rewrite <- E. apply in_map. exact Hx.
Qed.

Lemma linked_rows_In (s : store) (groupOf : column) (hidden : Z)
    (c : ClassRow) (j : JunctionRow) (b : string) :
  In c (CLASS s) ->
  In j (filter (fun j => j_classID j =? c_classID c) (JUNCTION s)) ->
  In b (map (column_text groupOf)
          (filter (fun i => (m_imageID i =? j_imageID j)
                            && (m_hidden i =? hidden)) (MEDIA s))) ->
  exists i, member s i (c_class c) /\ m_hidden i = hidden /\
            column_text groupOf i = b /\ m_imageID i = j_imageID j.
Proof.
  intros Hc Hj Hb. apply filter_In in Hj. destruct Hj as [Hj Hjc].
  apply in_map_iff in Hb. destruct Hb as [i [Hb Hi]].
  apply filter_In in Hi. destruct Hi as [Hi Ht].
  apply andb_true_iff in Ht. destruct Ht as [Hid Hh].
  apply Z.eqb_eq in Hjc, Hid, Hh.
  exists i. split; [|auto]. split; [exact Hi|]. exists c, j. auto.
Qed.

Lemma requested_values_NoDup (classes : list string) (s : store)
    (groupOf : column) (hidden : Z) :
  NoDup (map m_imageID (MEDIA s)) ->
  NoDup (map c_class (CLASS s)) ->
  NoDup (JUNCTION s) ->
  (forall i label label',
      In label classes -> In label' classes ->
      member s i label -> member s i label' -> m_hidden i = hidden ->
      label = label') ->
  (forall i i' label label',
      In label classes -> In label' classes ->
      member s i label -> member s i' label' ->
      m_hidden i = hidden -> m_hidden i' = hidden ->
      column_text groupOf i = column_text groupOf i' -> i = i') ->
  NoDup (map snd (requested classes (joined s groupOf hidden))).
Proof.
  intros Hmedia Hclass Hjunction Hsingle Hdistinct.
  rewrite requested_by_class. apply NoDup_flat_map_on.
  - apply (NoDup_map_inv c_class). exact Hclass.
  - intros c Hc. destruct (Text.mem (c_class c) classes) eqn:Hreq;
      [|constructor].
    apply mem_In in Hreq. apply NoDup_flat_map_on.
    + apply NoDup_filter. exact Hjunction.
    + intros j Hj. apply NoDup_map_on.
      * apply NoDup_filter. apply (NoDup_map_inv m_imageID). exact Hmedia.
      * intros x y Hx Hy E.
        destruct (linked_rows_In s groupOf hidden c j (column_text groupOf x)
                    Hc Hj (in_map _ _ _ Hx)) as [i [Hm [Hh [Hv _]]]].
        destruct (linked_rows_In s groupOf hidden c j (column_text groupOf y)
                    Hc Hj (in_map _ _ _ Hy)) as [i' [Hm' [Hh' [Hv' _]]]].
        apply filter_In in Hx, Hy. destruct Hx as [Hx Hxt], Hy as [Hy Hyt].
        apply andb_true_iff in Hxt, Hyt.
        destruct Hxt as [Hxi Hxh], Hyt as [Hyi Hyh].
        apply Z.eqb_eq in Hxi, Hxh, Hyi, Hyh.
        apply filter_In in Hj. destruct Hj as [Hj Hjc].
        apply Z.eqb_eq in Hjc.
        apply (Hdistinct x y (c_class c) (c_class c)); auto;
          (split; [assumption|exists c, j; auto]).
    + intros j j' b Hj Hj' Hb Hb'.
      destruct (linked_rows_In s groupOf hidden c j b Hc Hj Hb)
        as [i [Hm [Hh [Hv Hid]]]].
      destruct (linked_rows_In s groupOf hidden c j' b Hc Hj' Hb')
        as [i' [Hm' [Hh' [Hv' Hid']]]].
      assert (i = i')
        by (apply (Hdistinct i i' (c_class c) (c_class c)); auto; congruence).
      subst i'. apply filter_In in Hj, Hj'.
      destruct Hj as [_ Hjc], Hj' as [_ Hjc'].
      apply Z.eqb_eq in Hjc, Hjc'. destruct j, j'; simpl in *. congruence.
  - intros c c' b Hc Hc' Hb Hb'.
    destruct (Text.mem (c_class c) classes) eqn:Hreq; [|contradiction].
    destruct (Text.mem (c_class c') classes) eqn:Hreq'; [|contradiction].
    apply mem_In in Hreq, Hreq'.
    apply in_flat_map in Hb, Hb'.
    destruct Hb as [j [Hj Hb]], Hb' as [j' [Hj' Hb']].
    destruct (linked_rows_In s groupOf hidden c j b Hc Hj Hb)
      as [i [Hm [Hh [Hv _]]]].
    destruct (linked_rows_In s groupOf hidden c' j' b Hc' Hj' Hb')
      as [i' [Hm' [Hh' [Hv' _]]]].
    assert (i = i')
      by (apply (Hdistinct i i' (c_class c) (c_class c')); auto; congruence).
    subst i'.
    apply (NoDup_map_eq c_class (CLASS s)); auto.
    apply (Hsingle i); auto.
Qed.

(** C3, as the code has it: [tupleByClass] does not deduplicate.  Its
    tuple holds the values of the members of the requested classes at the
    requested visibility, one entry for each link between a requested class
    and a member, so the value of an item that belongs to several requested
    classes is repeated.  No value is repeated when no item belongs to more
    than one requested class and different items hold different values.
    Stated for values without a comma. *)
Theorem tupleByClass_one_entry_per_link (classes : list string) (hidden : Z)
    (groupOf : column) (w : world) :
  (forall i label,
      In label classes -> member (db w) i label -> m_hidden i = hidden ->
      comma_free (column_text groupOf i)) ->
  exists t,
    tupleByClass classes hidden groupOf w
    = (inr t,
       mkWorld (db w)
         (trace w ++ [Executed (SelectGroupConcat groupOf hidden)])) /\
    (forall v, In v t <->
               exists i label,
                 In label classes /\ member (db w) i label /\
                 m_hidden i = hidden /\ column_text groupOf i = v) /\
    Permutation t
      (map snd (requested classes (joined (db w) groupOf hidden))) /\
    (NoDup (map m_imageID (MEDIA (db w))) ->
     NoDup (map c_class (CLASS (db w))) ->
     NoDup (JUNCTION (db w)) ->
     (forall i label label',
         In label classes -> In label' classes ->
         member (db w) i label -> member (db w) i label' ->
         m_hidden i = hidden -> label = label') ->
     (forall i i' label label',
         In label classes -> In label' classes ->
         member (db w) i label -> member (db w) i' label' ->
         m_hidden i = hidden -> m_hidden i' = hidden ->
         column_text groupOf i = column_text groupOf i' -> i = i') ->
     NoDup t).
Proof.
  intros Hfree. eexists. split; [apply tupleByClass_run|].
  split; [intros v; apply tupleByClass_In; exact Hfree|].
  pose proof (tupleByClass_values classes hidden groupOf (db w) Hfree) as HP.
  split; [exact HP|].
  intros Hmedia Hclass Hjunction Hsingle Hdistinct.
  apply (Permutation_NoDup (Permutation_sym HP)).
  apply requested_values_NoDup; assumption.
Qed.

(** ** Further properties: existence check and insert *)

Lemma hashExist_run (hashValue : string) (w : world) :
  hashExist hashValue w
  = (inr (existsb (fun r => String.eqb (m_hash r) hashValue) (MEDIA (db w))),
     mkWorld (db w) (trace w ++ [Executed (SelectHashExists hashValue)])).
Proof.
  unfold hashExist, bind, executeQuery. simpl.
  destruct (existsb (fun r => String.eqb (m_hash r) hashValue) (MEDIA (db w)));
    reflexivity.
Qed.

Lemma existsb_hash (h : string) (rows : list MediaRow) :
  existsb (fun r => String.eqb (m_hash r) h) rows = true <->
  exists r, In r rows /\ m_hash r = h.
Proof.
  rewrite existsb_exists. split; intros [r [Hr He]]; exists r;
    (split; [exact Hr|]); apply String.eqb_eq; exact He.
Qed.

(** After an insert the hash is in the catalog, and every row that holds
    it has the path just given. *)
Lemma insertIntoDB_row (file : string) (imgClass : list string)
    (imgHash : string) (w : world) :
  exists w',
    insertIntoDB file imgClass imgHash w = (inr tt, w') /\
    (exists r, In r (MEDIA (db w')) /\ m_hash r = imgHash) /\
    (forall r, In r (MEDIA (db w')) -> m_hash r = imgHash ->
               m_path r = file).
Proof.
  destruct (existsb (fun r => String.eqb (m_hash r) imgHash) (MEDIA (db w)))
    eqn:He.
  - rewrite (insertIntoDB_existing _ _ _ _ He). eexists.
    split; [reflexivity|]. simpl. split.
    + apply existsb_hash in He. destruct He as [r [Hr Hh]].
      exists (set_path file r). split; [|exact Hh].
      apply in_map_iff. exists r. split; [|exact Hr].
      rewrite Hh, String.eqb_refl. reflexivity.
    + intros r' Hr' Hh'. apply in_map_iff in Hr'.
      destruct Hr' as [r [Hf Hr]].
      destruct (String.eqb_spec (m_hash r) imgHash) as [Hh|Hh].
      * subst r'. reflexivity.
      * subst r'. contradiction.
  - destruct (insertIntoDB_fresh file imgClass imgHash w He)
      as [w' [Hrun [Hm _]]].
    exists w'. split; [exact Hrun|]. rewrite Hm. split.
    + eexists. split; [apply in_or_app; right; left; reflexivity|].
      reflexivity.
    + intros r Hr Hh. apply in_app_or in Hr. destruct Hr as [Hr|[<-|[]]].
      * exfalso. assert (Ht : existsb (fun r => String.eqb (m_hash r) imgHash)
                                     (MEDIA (db w)) = true)
          by (apply existsb_hash; exists r; auto).
        congruence.
      * reflexivity.
Qed.

(** X1: [hashExist] raises nothing, leaves the relations as they were,
    and answers [True] exactly when some row of [MEDIA] holds the hash. *)
Theorem hashExist_iff (hashValue : string) (w : world) :
  exists b,
    hashExist hashValue w
    = (inr b,
       mkWorld (db w) (trace w ++ [Executed (SelectHashExists hashValue)])) /\
    (b = true <-> exists r, In r (MEDIA (db w)) /\ m_hash r = hashValue).
Proof.
  eexists. split; [apply hashExist_run|]. apply existsb_hash.
Qed.

(** X2: whatever the catalog held, after [insertIntoDB] of a hash
    [hashExist] answers [True] for it, and the path of the item that
    holds the hash is the path just given. *)
Theorem insertIntoDB_then_hashExist (file : string) (imgClass : list string)
    (imgHash : string) (w : world) :
  exists w1 w2,
    insertIntoDB file imgClass imgHash w = (inr tt, w1) /\
    hashExist imgHash w1 = (inr true, w2) /\
    (forall r, In r (MEDIA (db w1)) -> m_hash r = imgHash ->
               m_path r = file).
Proof.
  destruct (insertIntoDB_row file imgClass imgHash w)
    as [w1 [Hrun [Hex Hpath]]].
  exists w1. eexists. split; [exact Hrun|]. split; [|exact Hpath].
  rewrite hashExist_run. apply existsb_hash in Hex. rewrite Hex. reflexivity.
Qed.

(** X3: whatever the catalog held, inserting a hash at a path and then
    deleting that path leaves no item with the hash: [hashExist] answers
    [False]. *)
Theorem insertIntoDB_deleteFromDB_hashExist (file : string)
    (imgClass : list string) (imgHash : string) (w : world) :
  exists w',
    (insertIntoDB file imgClass imgHash ;;
     deleteFromDB [file] ;;
     hashExist imgHash) w = (inr false, w').
Proof.
  destruct (insertIntoDB_row file imgClass imgHash w)
    as [w1 [Hrun [_ Hpath]]].
  rewrite (bind_ok _ _ _ _ _ Hrun).
  rewrite (bind_ok _ _ _ _ _ (deleteFromDB_run [file] w1 (fits_one file))).
  rewrite hashExist_run. eexists. f_equal. f_equal.
  change (existsb (fun r => String.eqb (m_hash r) imgHash)
            (filter (fun r => negb (path_in [file] r)) (MEDIA (db w1)))
          = false).
  destruct (existsb (fun r => String.eqb (m_hash r) imgHash)
              (filter (fun r => negb (path_in [file] r)) (MEDIA (db w1))))
    eqn:He; [exfalso|reflexivity].
  apply existsb_hash in He. destruct He as [r [Hr Hh]].
  apply filter_In in Hr. destruct Hr as [Hr Hn].
  apply negb_true_iff in Hn. unfold path_in in Hn.
  apply mem_not_In in Hn. apply Hn. left. symmetry. apply Hpath; assumption.
Qed.


(** ** Further properties: the keys and the links under [insertIntoDB] *)

Lemma fold_max_ge (rest : list Z) (i : Z) :
  i <= fold_left Z.max rest i /\
  forall x, In x rest -> x <= fold_left Z.max rest i.
Proof.
  revert i. induction rest as [|y rest IH]; simpl; intros i.
  - split; [lia|intros x []].
  - destruct (IH (Z.max i y)) as [H1 H2]. split; [lia|].
    intros x [<-|Hx]; [lia|apply H2; exact Hx].
Qed.

Lemma max_rowid_ge (ids : list Z) (x : Z) : In x ids -> x <= max_rowid ids.
Proof.
  destruct ids as [|i rest]; simpl; [intros []|].
  destruct (fold_max_ge rest i) as [H1 H2].
  intros [<-|Hx]; [exact H1|apply H2; exact Hx].
Qed.

Lemma new_rowid_fresh (ids : list Z) (seq : Z) : ~ In (new_rowid ids seq) ids.
Proof.
  intros Hin. apply max_rowid_ge in Hin. unfold new_rowid in Hin.
  destruct (autoincrement eng); lia.
Qed.

Lemma existsb_label (label : string) (rows : list ClassRow) :
  existsb (fun c => String.eqb (c_class c) label) rows = false ->
  ~ In label (map c_class rows).
Proof.
  intros He Hin. apply in_map_iff in Hin. destruct Hin as [c [Hl Hc]].
  assert (Ht : existsb (fun c => String.eqb (c_class c) label) rows = true).
  { apply existsb_exists. exists c. split; [exact Hc|].
    apply String.eqb_eq. exact Hl. }
  congruence.
Qed.

Lemma assign_class_CLASS (imageID : Z) (className : string) (w : world) :
  exists w',
    assign_class imageID tt className w = (inr tt, w') /\
    CLASS (db w')
    = if existsb (fun c => String.eqb (c_class c) className) (CLASS (db w))
      then CLASS (db w)
      else CLASS (db w)
           ++ [mkClass (new_rowid (map c_classID (CLASS (db w)))
                                  (class_seq (db w)))
                       className].
Proof.
  unfold assign_class, try_except, bind, executeQuery. simpl.
  destruct (existsb (fun c => String.eqb (c_class c) className)
                    (CLASS (db w))) eqn:Hc; simpl.
  - destruct (existsb_filter_first _ _ Hc) as [c0 [rest Hf]].
    rewrite Hf. simpl.
    destruct (existsb (junction_eqb (mkJunction imageID (c_classID c0)))
                      (JUNCTION (db w)));
      eexists; split; reflexivity.
  - destruct (existsb (junction_eqb
                         (mkJunction imageID
                            (new_rowid (map c_classID (CLASS (db w)))
                                       (class_seq (db w)))))
                      (JUNCTION (db w)));
      eexists; split; reflexivity.
Qed.

(** What one round of the loop of [insertIntoDB] keeps and adds. *)
Lemma assign_class_step (imageID : Z) (className : string) (w : world) :
  exists w',
    assign_class imageID tt className w = (inr tt, w') /\
    MEDIA (db w') = MEDIA (db w) /\
    (NoDup (map c_classID (CLASS (db w))) ->
     NoDup (map c_classID (CLASS (db w')))) /\
    (NoDup (map c_class (CLASS (db w))) ->
     NoDup (map c_class (CLASS (db w')))) /\
    incl (CLASS (db w)) (CLASS (db w')) /\
    incl (JUNCTION (db w)) (JUNCTION (db w')) /\
    (forall j, In j (JUNCTION (db w')) ->
       In j (JUNCTION (db w)) \/
       (j_imageID j = imageID /\
        exists cr, In cr (CLASS (db w')) /\ c_classID cr = j_classID j)) /\
    (exists cr, In cr (CLASS (db w')) /\ c_class cr = className /\
                In (mkJunction imageID (c_classID cr)) (JUNCTION (db w'))).
Proof.
  destruct (assign_class_ok imageID className w)
    as [cid [w' [Hrun [Hm [Hin [[cr [Hcr [Hl Hid]]] [Hsame [Hnew _]]]]]]]].
  destruct (assign_class_CLASS imageID className w) as [w2 [Hrun2 Hcl]].
  rewrite Hrun in Hrun2. inversion Hrun2; subst w2. clear Hrun2.
  exists w'. split; [exact Hrun|]. split; [exact Hm|].
  destruct (existsb (fun c => String.eqb (c_class c) className)
                    (CLASS (db w))) eqn:He.
  - rewrite Hcl. split; [auto|]. split; [auto|]. split; [apply incl_refl|].
    assert (HJ : incl (JUNCTION (db w)) (JUNCTION (db w')) /\
                 forall j, In j (JUNCTION (db w')) ->
                   In j (JUNCTION (db w)) \/ j = mkJunction imageID cid).
    { destruct (existsb (junction_eqb (mkJunction imageID cid))
                        (JUNCTION (db w))) eqn:Hj.
      - apply existsb_junction in Hj. rewrite (Hsame Hj).
        split; [apply incl_refl|auto].
      - assert (Hn : ~ In (mkJunction imageID cid) (JUNCTION (db w)))
          by (rewrite <- existsb_junction; congruence).
        rewrite (Hnew Hn). split; [apply incl_appl, incl_refl|].
        intros j Hj'. apply in_app_or in Hj'.
        destruct Hj' as [Hj'|[<-|[]]]; auto. }
    destruct HJ as [HJ1 HJ2]. split; [exact HJ1|]. split.
    + intros j Hj. destruct (HJ2 j Hj) as [Hold| ->]; [left; exact Hold|].
      right. split; [reflexivity|]. exists cr. rewrite <- Hcl. auto.
    + exists cr. rewrite <- Hcl. subst cid. auto.
  - rewrite Hcl. split.
    { intros Hnd. rewrite map_app. simpl. apply NoDup_snoc; [exact Hnd|].
      apply new_rowid_fresh. }
    split.
    { intros Hnd. rewrite map_app. simpl. apply NoDup_snoc; [exact Hnd|].
      apply existsb_label. exact He. }
    split; [apply incl_appl, incl_refl|].
    assert (HJ : incl (JUNCTION (db w)) (JUNCTION (db w')) /\
                 forall j, In j (JUNCTION (db w')) ->
                   In j (JUNCTION (db w)) \/ j = mkJunction imageID cid).
    { destruct (existsb (junction_eqb (mkJunction imageID cid))
                        (JUNCTION (db w))) eqn:Hj.
      - apply existsb_junction in Hj. rewrite (Hsame Hj).
        split; [apply incl_refl|auto].
      - assert (Hn : ~ In (mkJunction imageID cid) (JUNCTION (db w)))
          by (rewrite <- existsb_junction; congruence).
        rewrite (Hnew Hn). split; [apply incl_appl, incl_refl|].
        intros j Hj'. apply in_app_or in Hj'.
        destruct Hj' as [Hj'|[<-|[]]]; auto. }
    destruct HJ as [HJ1 HJ2]. split; [exact HJ1|]. split.
    + intros j Hj. destruct (HJ2 j Hj) as [Hold| ->]; [left; exact Hold|].
      right. split; [reflexivity|]. exists cr. rewrite <- Hcl. auto.
    + exists cr. rewrite <- Hcl. subst cid. auto.
Qed.

Lemma assign_loop_step (imageID : Z) (imgClass : list string) (w : world) :
  exists w',
    for_each imgClass (assign_class imageID) tt w = (inr tt, w') /\
    MEDIA (db w') = MEDIA (db w) /\
    (NoDup (map c_classID (CLASS (db w))) ->
     NoDup (map c_classID (CLASS (db w')))) /\
    (NoDup (map c_class (CLASS (db w))) ->
     NoDup (map c_class (CLASS (db w')))) /\
    incl (CLASS (db w)) (CLASS (db w')) /\
    incl (JUNCTION (db w)) (JUNCTION (db w')) /\
    (forall j, In j (JUNCTION (db w')) ->
       In j (JUNCTION (db w)) \/
       (j_imageID j = imageID /\
        exists cr, In cr (CLASS (db w')) /\ c_classID cr = j_classID j)) /\
    (forall c, In c imgClass ->
       exists cr, In cr (CLASS (db w')) /\ c_class cr = c /\
                  In (mkJunction imageID (c_classID cr)) (JUNCTION (db w'))).
Proof.
  revert w. induction imgClass as [|c l IH]; intros w; simpl.
  - exists w. repeat split; auto using incl_refl. intros c [].
  - destruct (assign_class_step imageID c w)
      as [w1 [Hrun [Hm [Hid [Hlab [Hc [Hj [Hshape Hlink]]]]]]]].
    destruct (IH w1)
      as [w2 [Hrun2 [Hm2 [Hid2 [Hlab2 [Hc2 [Hj2 [Hshape2 Hlink2]]]]]]]].
    exists w2. rewrite (bind_ok _ _ _ _ _ Hrun). split; [exact Hrun2|].
    split; [congruence|]. split; [auto|]. split; [auto|].
    split; [eapply incl_tran; eauto|]. split; [eapply incl_tran; eauto|].
    split.
    + intros j Hin. destruct (Hshape2 j Hin) as [Hold|Hnew]; [|auto].
      destruct (Hshape j Hold) as [Hold'|[Hi [cr [Hcr Hcid]]]]; [auto|].
      right. split; [exact Hi|]. exists cr. auto.
    + intros c' [<-|Hin]; [|apply Hlink2; exact Hin].
      destruct Hlink as [cr [Hcr [Hl Hjn]]]. exists cr. auto.
Qed.

Lemma insertIntoDB_fresh_loop (file : string) (imgClass : list string)
    (imgHash : string) (w w' : world) :
  existsb (fun r => String.eqb (m_hash r) imgHash) (MEDIA (db w)) = false ->
  for_each imgClass
    (assign_class (new_rowid (map m_imageID (MEDIA (db w))) (media_seq (db w))))
    tt
    (mkWorld
       (mkStore
          (MEDIA (db w)
           ++ [mkMedia (new_rowid (map m_imageID (MEDIA (db w)))
                                  (media_seq (db w))) imgHash file 0])
          (CLASS (db w)) (JUNCTION (db w))
          (new_seq (media_seq (db w))
             (new_rowid (map m_imageID (MEDIA (db w))) (media_seq (db w))))
          (class_seq (db w)))
       (trace w ++ [Executed (InsertMedia imgHash file)]))
  = (inr tt, w') ->
  insertIntoDB file imgClass imgHash w = (inr tt, w').
Proof.
  intros He Hloop. unfold insertIntoDB, try_except.
  erewrite bind_ok.
  - rewrite Hloop. reflexivity.
  - unfold executeQuery. simpl. rewrite He. reflexivity.
Qed.


Lemma grouped_member (s : store) (groupOf : column) (hidden : Z)
    (i : MediaRow) (label : string) :
  member s i label -> m_hidden i = hidden ->
  exists t,
    dict_get (groups_of (plan eng s groupOf hidden)) label = Some t /\
    incl (Text.split (column_text groupOf i)) t.
Proof.
  intros Hm Hh.
  assert (Hin : In (label, column_text groupOf i) (plan eng s groupOf hidden)).
  { apply (Permutation_in _ (Permutation_sym (plan_perm _ _ _))).
    apply joined_In. exists i. auto. }
  eexists. split.
  - apply groups_of_get_In. apply (in_map fst) in Hin. exact Hin.
  - intros p Hp. apply in_flat_map. exists (column_text groupOf i).
    split; [|exact Hp]. apply in_map_iff.
    exists (label, column_text groupOf i). split; [reflexivity|].
    apply filter_In. split; [exact Hin|apply String.eqb_refl].
Qed.

(** X4: an item inserted under a hash the catalog does not hold is
    visible and is found under each of its classes: [groupByClass] for the
    visible items has an entry for every label of the class list, and the
    pieces of the path (the path itself when it has no comma) are in it. *)
Theorem insertIntoDB_then_groupByClass (file : string)
    (imgClass : list string) (imgHash : string) (w : world) :
  (forall r, In r (MEDIA (db w)) -> m_hash r <> imgHash) ->
  exists w1 groups w2,
    insertIntoDB file imgClass imgHash w = (inr tt, w1) /\
    groupByClass 0 ColPath w1 = (inr groups, w2) /\
    forall c, In c imgClass ->
      exists t, dict_get groups c = Some t /\
                incl (Text.split file) t /\
                (comma_free file -> In file t).
Proof.
  intros Hfresh.
  assert (He : existsb (fun r => String.eqb (m_hash r) imgHash)
                       (MEDIA (db w)) = false).
  { destruct (existsb (fun r => String.eqb (m_hash r) imgHash)
                      (MEDIA (db w))) eqn:He; [exfalso|reflexivity].
    apply existsb_hash in He. destruct He as [r [Hr Hh]].
    exact (Hfresh r Hr Hh). }
  set (id := new_rowid (map m_imageID (MEDIA (db w))) (media_seq (db w))).
  destruct (assign_loop_step id imgClass
              (mkWorld
                 (mkStore (MEDIA (db w) ++ [mkMedia id imgHash file 0])
                          (CLASS (db w)) (JUNCTION (db w))
                          (new_seq (media_seq (db w)) id) (class_seq (db w)))
                 (trace w ++ [Executed (InsertMedia imgHash file)])))
    as [w1 [Hloop [Hm [_ [_ [_ [_ [_ Hlink]]]]]]]].
  exists w1. eexists. eexists.
  split; [apply (insertIntoDB_fresh_loop _ _ _ _ _ He Hloop)|].
  split; [apply groupByClass_run|].
  intros c Hc. destruct (Hlink c Hc) as [cr [Hcr [Hl Hj]]].
  destruct (grouped_member (db w1) ColPath 0 (mkMedia id imgHash file 0) c)
    as [t [Hget Hincl]].
  - split.
    + rewrite Hm. simpl. apply in_or_app. right. left. reflexivity.
    + exists cr, (mkJunction id (c_classID cr)). auto.
  - reflexivity.
  - exists t. split; [exact Hget|]. split; [exact Hincl|].
    intros Hfree. apply Hincl. simpl.
    rewrite (split_comma_free file Hfree). left. reflexivity.
Qed.

(** X6: [insertIntoDB] keeps the keys of the schema: if no two items
    share an [imageID] or a hash, no two classes a [classID] or a label,
    and no pair is linked twice, the same holds afterwards. *)
Theorem insertIntoDB_keeps_keys (file : string) (imgClass : list string)
    (imgHash : string) (w : world) :
  keys_ok (db w) ->
  exists w',
    insertIntoDB file imgClass imgHash w = (inr tt, w') /\ keys_ok (db w').
Proof.
  intros [Hid [Hhash [Hcid [Hlab Hj]]]].
  destruct (existsb (fun r => String.eqb (m_hash r) imgHash) (MEDIA (db w)))
    eqn:He.
  - rewrite (insertIntoDB_existing _ _ _ _ He). eexists.
    split; [reflexivity|]. unfold keys_ok. simpl.
    assert (E1 : map m_imageID
                   (map (fun r => if String.eqb (m_hash r) imgHash
                                  then set_path file r else r) (MEDIA (db w)))
                 = map m_imageID (MEDIA (db w))).
    { rewrite map_map. apply map_ext. intros r.
      destruct (String.eqb (m_hash r) imgHash); reflexivity. }
    assert (E2 : map m_hash
                   (map (fun r => if String.eqb (m_hash r) imgHash
                                  then set_path file r else r) (MEDIA (db w)))
                 = map m_hash (MEDIA (db w))).
    { rewrite map_map. apply map_ext. intros r.
      destruct (String.eqb (m_hash r) imgHash); reflexivity. }
    rewrite E1, E2. auto.
  - set (id := new_rowid (map m_imageID (MEDIA (db w))) (media_seq (db w))).
    set (w0 := mkWorld
                 (mkStore (MEDIA (db w) ++ [mkMedia id imgHash file 0])
                          (CLASS (db w)) (JUNCTION (db w))
                          (new_seq (media_seq (db w)) id) (class_seq (db w)))
                 (trace w ++ [Executed (InsertMedia imgHash file)])).
    destruct (assign_loop_step id imgClass w0)
      as [w1 [Hloop [Hm [Hcid1 [Hlab1 _]]]]].
    destruct (assign_loop_ok id imgClass w0) as [w2 [Hloop2 [_ Hj2]]].
    rewrite Hloop in Hloop2. inversion Hloop2; subst w2. clear Hloop2.
    exists w1. split; [apply (insertIntoDB_fresh_loop _ _ _ _ _ He Hloop)|].
    unfold keys_ok. rewrite Hm. simpl. rewrite !map_app. simpl.
    split; [apply NoDup_snoc; [exact Hid|apply new_rowid_fresh]|].
    split.
    { apply NoDup_snoc; [exact Hhash|]. intros Hin.
      apply in_map_iff in Hin. destruct Hin as [r [Hh Hr]].
      assert (Ht : existsb (fun r => String.eqb (m_hash r) imgHash)
                           (MEDIA (db w)) = true)
        by (apply existsb_hash; exists r; auto).
      congruence. }
    split; [apply Hcid1; exact Hcid|].
    split; [apply Hlab1; exact Hlab|apply Hj2; exact Hj].
Qed.

(** X7: [insertIntoDB] keeps the links sound: if every row of [JUNCTION]
    joins an existing item to an existing class, the same holds
    afterwards; the rows it adds join the new item to the classes of its
    list. *)
Theorem insertIntoDB_keeps_links (file : string) (imgClass : list string)
    (imgHash : string) (w : world) :
  links_ok (db w) ->
  exists w',
    insertIntoDB file imgClass imgHash w = (inr tt, w') /\ links_ok (db w').
Proof.
  intros Hok.
  destruct (existsb (fun r => String.eqb (m_hash r) imgHash) (MEDIA (db w)))
    eqn:He.
  - rewrite (insertIntoDB_existing _ _ _ _ He). eexists.
    split; [reflexivity|]. intros j Hj. simpl in Hj.
    destruct (Hok j Hj) as [[i [Hi Hid]] Hc]. split; [|exact Hc].
    exists (if String.eqb (m_hash i) imgHash then set_path file i else i).
    split.
    + simpl. apply in_map_iff. exists i. auto.
    + destruct (String.eqb (m_hash i) imgHash); exact Hid.
  - set (id := new_rowid (map m_imageID (MEDIA (db w))) (media_seq (db w))).
    set (w0 := mkWorld
                 (mkStore (MEDIA (db w) ++ [mkMedia id imgHash file 0])
                          (CLASS (db w)) (JUNCTION (db w))
                          (new_seq (media_seq (db w)) id) (class_seq (db w)))
                 (trace w ++ [Executed (InsertMedia imgHash file)])).
    destruct (assign_loop_step id imgClass w0)
      as [w1 [Hloop [Hm [_ [_ [Hc [_ [Hshape _]]]]]]]].
    exists w1. split; [apply (insertIntoDB_fresh_loop _ _ _ _ _ He Hloop)|].
    intros j Hj. rewrite Hm. simpl.
    destruct (Hshape j Hj) as [Hold|[Hi [cr [Hcr Hcid]]]].
    + destruct (Hok j Hold) as [[i [Hi Hid]] [c [Hcl Hcid]]]. split.
      * exists i. split; [apply in_or_app; left; exact Hi|exact Hid].
      * exists c. split; [apply Hc; exact Hcl|exact Hcid].
    + split.
      * exists (mkMedia id imgHash file 0).
        split; [apply in_or_app; right; left; reflexivity|].
        simpl. symmetry. exact Hi.
      * exists cr. auto.
Qed.

Lemma Forall2_same {A} (R : A -> A -> Prop) (l : list A) :
  (forall x, R x x) -> Forall2 R l l.
Proof. intros HR. induction l; constructor; auto. Qed.

(** X8: [insertIntoDB] takes nothing away: every item that was in the
    catalog is still there with its [imageID], hash and visibility, at
    most one item is added after them, and no class and no link is
    removed. *)
Theorem insertIntoDB_only_adds (file : string) (imgClass : list string)
    (imgHash : string) (w : world) :
  exists w' kept added,
    insertIntoDB file imgClass imgHash w = (inr tt, w') /\
    MEDIA (db w') = kept ++ added /\
    Forall2
      (fun r r' =>
         m_imageID r' = m_imageID r /\ m_hash r' = m_hash r /\
         m_hidden r' = m_hidden r)
      (MEDIA (db w)) kept /\
    (List.length added <= 1)%nat /\
    incl (CLASS (db w)) (CLASS (db w')) /\
    incl (JUNCTION (db w)) (JUNCTION (db w')).
Proof.
  destruct (existsb (fun r => String.eqb (m_hash r) imgHash) (MEDIA (db w)))
    eqn:He.
  - rewrite (insertIntoDB_existing _ _ _ _ He).
    eexists. eexists. exists []. split; [reflexivity|]. simpl.
    split; [rewrite app_nil_r; reflexivity|]. split.
    + clear He.
      induction (MEDIA (db w)) as [|r l IH]; simpl;
        [constructor|constructor; [|exact IH]].
      destruct (String.eqb (m_hash r) imgHash); simpl; auto.
    + split; [lia|]. split; apply incl_refl.
  - set (id := new_rowid (map m_imageID (MEDIA (db w))) (media_seq (db w))).
    set (w0 := mkWorld
                 (mkStore (MEDIA (db w) ++ [mkMedia id imgHash file 0])
                          (CLASS (db w)) (JUNCTION (db w))
                          (new_seq (media_seq (db w)) id) (class_seq (db w)))
                 (trace w ++ [Executed (InsertMedia imgHash file)])).
    destruct (assign_loop_step id imgClass w0)
      as [w1 [Hloop [Hm [_ [_ [Hc [Hj _]]]]]]].
    exists w1, (MEDIA (db w)), [mkMedia id imgHash file 0].
    split; [apply (insertIntoDB_fresh_loop _ _ _ _ _ He Hloop)|].
    split; [exact Hm|]. split.
    + apply Forall2_same. auto.
    + simpl. split; [lia|]. split; assumption.
Qed.


(** ** Further properties: deletion *)

(** X9: when the paths are no more than the engine's limit on host
    parameters allows, [deleteFromDB] raises nothing; the items that stay
    are exactly those whose path is not among the given ones, in their
    order; [CLASS] is not touched, and [JUNCTION] loses rows only under a
    cascading schema; [deleteFile] is called once, with all the given
    paths, whether or not the catalog held them.  Above the limit the
    [DELETE] is refused: [sqlite3.OperationalError] is raised, no relation
    changes and [deleteFile] is not called. *)
Theorem deleteFromDB_exact (paths : list string) (w : world) :
  (fits (List.length paths) ->
   exists w',
     deleteFromDB paths w = (inr tt, w') /\
     MEDIA (db w')
     = filter (fun r => negb (Text.mem (m_path r) paths)) (MEDIA (db w)) /\
     (forall r, In r (MEDIA (db w')) <->
                In r (MEDIA (db w)) /\ ~ In (m_path r) paths) /\
     CLASS (db w') = CLASS (db w) /\
     incl (JUNCTION (db w')) (JUNCTION (db w)) /\
     (cascade eng = false -> JUNCTION (db w') = JUNCTION (db w)) /\
     trace w' = trace w ++ [Executed (DeleteMedia paths); DeleteFile paths])
  /\
  (~ fits (List.length paths) ->
   deleteFromDB paths w
   = (inl OperationalError,
      mkWorld (db w) (trace w ++ [Executed (DeleteMedia paths)]))).
Proof.
  split; [|apply deleteFromDB_refused].
  intros Hfit. rewrite (deleteFromDB_run _ _ Hfit).
  eexists. split; [reflexivity|]. simpl.
  split; [reflexivity|]. split.
  { intros r. rewrite filter_In, negb_true_iff. unfold path_in.
    rewrite mem_not_In. reflexivity. }
  split; [reflexivity|]. split.
  { destruct (cascade eng); [|apply incl_refl].
    intros j Hj. apply filter_In in Hj. apply Hj. }
  split; [|reflexivity].
  intros Hc. rewrite Hc. reflexivity.
Qed.

(** X10: under a cascading schema [deleteFromDB] keeps the links sound:
    if every row of [JUNCTION] joins an existing item to an existing
    class before the call, it does so after it, whether the call returns
    (the paths are within the limit on host parameters) or raises
    [sqlite3.OperationalError] (they are not). *)
Theorem deleteFromDB_cascade_keeps_links (paths : list string) (w : world) :
  cascade eng = true ->
  links_ok (db w) ->
  links_ok (db_of (deleteFromDB paths w)) /\
  (fits (List.length paths) -> result_of (deleteFromDB paths w) = inr tt) /\
  (~ fits (List.length paths) ->
   result_of (deleteFromDB paths w) = inl OperationalError).
Proof.
  intros Hc Hok.
  split; [|split; intros Hfit;
           [rewrite (deleteFromDB_run _ _ Hfit)
           |rewrite (deleteFromDB_refused _ _ Hfit)]; reflexivity].
  destruct (fits_dec (List.length paths)) as [Hfit|Hfit];
    [rewrite (deleteFromDB_run _ _ Hfit)
    |rewrite (deleteFromDB_refused _ _ Hfit); exact Hok].
  intros j Hj. unfold db_of in Hj. simpl in *. rewrite Hc in Hj.
  apply filter_In in Hj. destruct Hj as [Hj Hkeep].
  destruct (Hok j Hj) as [[i [Hi Hid]] Hcl]. split; [|exact Hcl].
  exists i. split; [|exact Hid]. apply filter_In. split; [exact Hi|].
  destruct (path_in paths i) eqn:Hp; [exfalso|reflexivity].
  apply negb_true_iff in Hkeep.
  assert (Ht : existsb (fun r => m_imageID r =? j_imageID j)
                 (filter (path_in paths) (MEDIA (db w))) = true).
  { apply existsb_exists. exists i. split.
    - apply filter_In. auto.
    - apply Z.eqb_eq. exact Hid. }
  congruence.
Qed.

Lemma plan_empty (s : store) (groupOf : column) (hidden : Z) :
  joined s groupOf hidden = [] -> plan eng s groupOf hidden = [].
Proof.
  intros Hj. apply Permutation_nil, Permutation_sym.
  rewrite <- Hj. apply plan_perm.
Qed.


Lemma first_insert_run (p c h : string) :
  exists tr,
    insertIntoDB p [c] h (mkWorld empty_store [])
    = (inr tt,
       mkWorld (mkStore [mkMedia 1 h p 0] [mkClass 1 c] [mkJunction 1 1]
                        (new_seq 0 1) (new_seq 0 1)) tr).
Proof.
  eexists.
  unfold insertIntoDB, try_except, bind, assign_class, try_except, bind,
    executeQuery.
  simpl. rewrite new_rowid_empty. simpl. unfold bind, ret. simpl.
  reflexivity.
Qed.

(** X11: the links of a deleted item outlive it unless the schema
    cascades, and a rowid is given again unless the keys are
    [AUTOINCREMENT].  From the empty catalog, insert an item under [c],
    delete it by its path and insert another item with no class: when the
    schema neither cascades nor autoincrements, the new item takes the
    freed [imageID] and [groupByClass] shows it under [c]; otherwise the
    grouping is empty. *)
Theorem deleted_links_are_inherited (p1 h1 c p2 h2 : string) :
  result_of (run (delete_then_insert p1 h1 c p2 h2) empty_store)
  = inr (if cascade eng || autoincrement eng then []
         else [(c, Text.split p2)]).
Proof.
  unfold run, delete_then_insert.
  destruct (first_insert_run p1 c h1) as [tr1 H1].
  rewrite (bind_ok _ _ _ _ _ H1).
  rewrite (bind_ok _ _ _ _ _ (deleteFromDB_run [p1] _ (fits_one p1))).
  unfold path_in. simpl. rewrite String.eqb_refl. simpl.
  unfold insertIntoDB, try_except, bind at 1, executeQuery. simpl.
  unfold bind, ret. simpl. unfold result_of. simpl.
  unfold new_rowid, new_seq. simpl.
  destruct (cascade eng), (autoincrement eng); simpl;
    rewrite groupByClass_run; simpl.
  - rewrite plan_empty by reflexivity. reflexivity.
  - rewrite plan_empty by reflexivity. reflexivity.
  - rewrite plan_empty by reflexivity. reflexivity.
  - rewrite (plan_singleton _ _ _ (c, p2)) by reflexivity.
    unfold groups_of. simpl. rewrite String.eqb_refl. simpl.
    rewrite app_nil_r. reflexivity.
Qed.


(** ** Further properties: visibility *)

Lemma hideByClass_run (classes : list string) (w : world) :
  fits (1 + List.length
              (flat_map snd
                 (requested classes
                    (groups_of (plan eng (db w) ColPath 0))))) ->
  exists paths tr,
    hideByClass classes w
    = (inr tt,
       mkWorld (with_media (db w)
                  (map (fun r => if path_in paths r then set_hidden 1 r else r)
                       (MEDIA (db w)))) tr) /\
    paths = flat_map snd
              (requested classes (groups_of (plan eng (db w) ColPath 0))).
Proof.
  intros Hfit. eexists. eexists. unfold hideByClass.
  rewrite (bind_ok _ _ _ _ _ (tupleByClass_run classes 0 ColPath w)).
  rewrite (toggleVisibility_run _ _ _ Hfit). split; reflexivity.
Qed.

Lemma hideByClass_refused (classes : list string) (w : world) :
  ~ fits (1 + List.length
                (flat_map snd
                   (requested classes
                      (groups_of (plan eng (db w) ColPath 0))))) ->
  exists tr, hideByClass classes w = (inl OperationalError, mkWorld (db w) tr).
Proof.
  intros Hfit. eexists. unfold hideByClass.
  rewrite (bind_ok _ _ _ _ _ (tupleByClass_run classes 0 ColPath w)).
  rewrite (toggleVisibility_refused _ _ _ Hfit). reflexivity.
Qed.

Lemma unhideByClass_run (classes : list string) (w : world) :
  fits (1 + List.length
              (flat_map snd
                 (requested classes
                    (groups_of (plan eng (db w) ColPath 1))))) ->
  exists paths tr,
    unhideByClass classes w
    = (inr tt,
       mkWorld (with_media (db w)
                  (map (fun r => if path_in paths r then set_hidden 0 r else r)
                       (MEDIA (db w)))) tr) /\
    paths = flat_map snd
              (requested classes (groups_of (plan eng (db w) ColPath 1))).
Proof.
  intros Hfit. eexists. eexists. unfold unhideByClass.
  rewrite (bind_ok _ _ _ _ _ (tupleByClass_run classes 1 ColPath w)).
  rewrite (toggleVisibility_run _ _ _ Hfit). split; reflexivity.
Qed.

Lemma unhideByClass_refused (classes : list string) (w : world) :
  ~ fits (1 + List.length
                (flat_map snd
                   (requested classes
                      (groups_of (plan eng (db w) ColPath 1))))) ->
  exists tr,
    unhideByClass classes w = (inl OperationalError, mkWorld (db w) tr).
Proof.
  intros Hfit. eexists. unfold unhideByClass.
  rewrite (bind_ok _ _ _ _ _ (tupleByClass_run classes 1 ColPath w)).
  rewrite (toggleVisibility_refused _ _ _ Hfit). reflexivity.
Qed.

Lemma Forall2_map_r {A} (R : A -> A -> Prop) (f : A -> A) (l : list A) :
  (forall x, R x (f x)) -> Forall2 R l (map f l).
Proof. intros HR. induction l; simpl; constructor; auto. Qed.

(** X12: [hideByClass] never shows an item and [unhideByClass] never
    hides one.  Each of them either returns or raises
    [sqlite3.OperationalError] with the relations as they were (the
    [UPDATE] binds more values than the engine's limit on host parameters
    allows); either way it leaves [CLASS] and [JUNCTION] as they were and
    every item either untouched or with only its [hidden] flag set (to 1,
    resp. to 0); so the visible items after [hideByClass] were all visible
    before, and the items visible before [unhideByClass] are all visible
    after. *)
Theorem hide_and_unhide_are_one_way (classes : list string) (w : world) :
  (exists r w',
      hideByClass classes w = (r, w') /\
      (r = inr tt \/ r = inl OperationalError /\ db w' = db w) /\
      CLASS (db w') = CLASS (db w) /\ JUNCTION (db w') = JUNCTION (db w) /\
      Forall2 (fun r r' => r' = r \/ r' = set_hidden 1 r)
              (MEDIA (db w)) (MEDIA (db w')) /\
      incl (visible_items (db w')) (visible_items (db w))) /\
  (exists r w',
      unhideByClass classes w = (r, w') /\
      (r = inr tt \/ r = inl OperationalError /\ db w' = db w) /\
      CLASS (db w') = CLASS (db w) /\ JUNCTION (db w') = JUNCTION (db w) /\
      Forall2 (fun r r' => r' = r \/ r' = set_hidden 0 r)
              (MEDIA (db w)) (MEDIA (db w')) /\
      incl (visible_items (db w)) (visible_items (db w'))).
Proof.
  split.
  - destruct (fits_dec
                (1 + List.length
                       (flat_map snd
                          (requested classes
                             (groups_of (plan eng (db w) ColPath 0))))))
      as [Hfit|Hfit].
    + destruct (hideByClass_run classes w Hfit) as [paths [tr [Hrun _]]].
      eexists. eexists. split; [exact Hrun|]. simpl.
      split; [left; reflexivity|].
      split; [reflexivity|]. split; [reflexivity|]. split.
      * apply Forall2_map_r. intros r. destruct (path_in paths r); auto.
      * intros r' Hr'. unfold visible_items in *. simpl in Hr'.
        apply filter_In in Hr'. destruct Hr' as [Hr' Hv].
        apply in_map_iff in Hr'. destruct Hr' as [r [Hf Hr]].
        destruct (path_in paths r); subst r'; [discriminate|].
        apply filter_In. auto.
    + destruct (hideByClass_refused classes w Hfit) as [tr Hrun].
      eexists. eexists. split; [exact Hrun|]. simpl.
      split; [right; split; reflexivity|].
      split; [reflexivity|]. split; [reflexivity|].
      split; [apply Forall2_same; auto|apply incl_refl].
  - destruct (fits_dec
                (1 + List.length
                       (flat_map snd
                          (requested classes
                             (groups_of (plan eng (db w) ColPath 1))))))
      as [Hfit|Hfit].
    + destruct (unhideByClass_run classes w Hfit) as [paths [tr [Hrun _]]].
      eexists. eexists. split; [exact Hrun|]. simpl.
      split; [left; reflexivity|].
      split; [reflexivity|]. split; [reflexivity|]. split.
      * apply Forall2_map_r. intros r. destruct (path_in paths r); auto.
      * intros r Hr. unfold visible_items in *. simpl.
        apply filter_In in Hr. destruct Hr as [Hr Hv].
        apply filter_In. split; [|exact Hv].
        apply in_map_iff. exists r. split; [|exact Hr].
        destruct (path_in paths r); [|reflexivity].
        apply Z.eqb_eq in Hv. destruct r; simpl in *. subst. reflexivity.
    + destruct (unhideByClass_refused classes w Hfit) as [tr Hrun].
      eexists. eexists. split; [exact Hrun|]. simpl.
      split; [right; split; reflexivity|].
      split; [reflexivity|]. split; [reflexivity|].
      split; [apply Forall2_same; auto|apply incl_refl].
Qed.

(** No member of the requested classes at the requested visibility: the
    tuple is empty. *)
Lemma tupleByClass_none_at (classes : list string) (hidden : Z)
    (groupOf : column) (w : world) :
  (forall label i,
      In label classes -> member (db w) i label -> m_hidden i <> hidden) ->
  tupleByClass classes hidden groupOf w
  = (inr [],
     mkWorld (db w) (trace w ++ [Executed (SelectGroupConcat groupOf hidden)])).
Proof.
  intros Hnone. rewrite tupleByClass_run. f_equal. f_equal.
  apply Permutation_nil. apply Permutation_sym. rewrite tupleByClass_perm.
  assert (Hr : requested classes (joined (db w) groupOf hidden) = []).
  { destruct (requested classes (joined (db w) groupOf hidden))
      as [|[k v] l] eqn:Hr; [reflexivity|exfalso].
    assert (Hin : In (k, v) (requested classes (joined (db w) groupOf hidden)))
      by (rewrite Hr; left; reflexivity).
    apply requested_In in Hin. destruct Hin as [Hj Hk].
    apply joined_In in Hj. destruct Hj as [i [Hm [Hh _]]].
    exact (Hnone k i Hk Hm Hh). }
  rewrite Hr. constructor.
Qed.

(** Resolving the members at one visibility and giving them another
    leaves no member at the first. *)
Lemma toggle_by_class_clears (classes : list string) (from to : Z)
    (s : store) :
  from <> to ->
  (forall i label,
      In label classes -> member s i label -> m_hidden i = from ->
      comma_free (m_path i)) ->
  forall label i',
    In label classes ->
    member
      (with_media s
         (map (fun r =>
                 if path_in
                      (flat_map snd
                         (requested classes
                            (groups_of (plan eng s ColPath from)))) r
                 then set_hidden to r else r) (MEDIA s)))
      i' label ->
    m_hidden i' <> from.
Proof.
  intros Hneq Hfree label i' Hl Hm.
  set (P := flat_map snd
              (requested classes (groups_of (plan eng s ColPath from)))) in *.
  apply member_with_media in Hm.
  - destruct Hm as [i [Hm ->]]. unfold path_in.
    destruct (Text.mem (m_path i) P) eqn:Hp; simpl; [congruence|].
    intros Hh. apply mem_not_In in Hp. apply Hp. unfold P.
    apply (tupleByClass_In classes from ColPath s (m_path i) Hfree).
    exists i, label. auto.
  - intros r. destruct (path_in P r); reflexivity.
Qed.

(** X13: once [hideByClass] has returned, no visible member of the
    classes is left to resolve: [tupleByClass] for the visible items of
    those classes is empty; likewise [tupleByClass] for the hidden items
    after [unhideByClass].  Each of the two returns when the value bound
    to [hidden] and the paths it resolves, one per row of the join, are
    no more than the engine's limit on host parameters allows.  Stated for
    member paths without a comma. *)
Theorem hideByClass_leaves_none_visible (classes : list string) (w : world) :
  ((forall i label,
       In label classes -> member (db w) i label -> m_hidden i = 0 ->
       comma_free (m_path i)) ->
   fits (1 + resolved classes (db w) 0) ->
   exists w1 w2,
     hideByClass classes w = (inr tt, w1) /\
     tupleByClass classes 0 ColPath w1 = (inr [], w2)) /\
  ((forall i label,
       In label classes -> member (db w) i label -> m_hidden i = 1 ->
       comma_free (m_path i)) ->
   fits (1 + resolved classes (db w) 1) ->
   exists w1 w2,
     unhideByClass classes w = (inr tt, w1) /\
     tupleByClass classes 1 ColPath w1 = (inr [], w2)).
Proof.
  split; intros Hfree Hfit.
  - rewrite <- (tupleByClass_length classes 0 (db w) Hfree) in Hfit.
    destruct (hideByClass_run classes w Hfit) as [paths [tr [Hrun Hp]]].
    eexists. eexists. split; [exact Hrun|].
    apply tupleByClass_none_at. intros label i' Hl Hm. subst paths.
    apply (toggle_by_class_clears classes 0 1 (db w)) with (label := label);
      auto. discriminate.
  - rewrite <- (tupleByClass_length classes 1 (db w) Hfree) in Hfit.
    destruct (unhideByClass_run classes w Hfit) as [paths [tr [Hrun Hp]]].
    eexists. eexists. split; [exact Hrun|].
    apply tupleByClass_none_at. intros label i' Hl Hm. subst paths.
    apply (toggle_by_class_clears classes 1 0 (db w)) with (label := label);
      auto. discriminate.
Qed.


(** X14: once [deleteByClass] has returned, the classes have no visible
    member left: [tupleByClass] for the visible items of those classes is
    empty, so a second [deleteByClass] finds nothing to delete.  It
    returns when the paths it resolves, one per row of the join, are no
    more than the engine's limit on host parameters allows.  Stated for
    member paths without a comma. *)
Theorem deleteByClass_leaves_none_visible (classes : list string)
    (w : world) :
  (forall i label,
      In label classes -> member (db w) i label -> m_hidden i = 0 ->
      comma_free (m_path i)) ->
  fits (resolved classes (db w) 0) ->
  exists w1 w2,
    deleteByClass classes w = (inr tt, w1) /\
    tupleByClass classes 0 ColPath w1 = (inr [], w2).
Proof.
  intros Hfree Hfit. unfold deleteByClass.
  rewrite <- (tupleByClass_length classes 0 (db w) Hfree) in Hfit.
  rewrite (bind_ok _ _ _ _ _ (tupleByClass_run classes 0 ColPath w)).
  rewrite (deleteFromDB_run _ _ Hfit).
  eexists. eexists. split; [reflexivity|].
  apply tupleByClass_none_at. intros label i Hl Hm Hh.
  set (P := flat_map snd
              (requested classes (groups_of (plan eng (db w) ColPath 0))))
    in *.
  destruct Hm as [Hi [c [j [Hc [Hj [Hlab [Hjc Hji]]]]]]]. simpl in *.
  apply filter_In in Hi. destruct Hi as [Hi Hkeep].
  apply negb_true_iff in Hkeep. unfold path_in in Hkeep.
  apply mem_not_In in Hkeep. apply Hkeep. unfold P.
  apply (tupleByClass_In classes 0 ColPath (db w) (m_path i) Hfree).
  exists i, label. split; [exact Hl|]. split; [|auto]. split; [exact Hi|].
  exists c, j. split; [exact Hc|]. split; [|auto].
  destruct (cascade eng); [|exact Hj].
  apply filter_In in Hj. apply Hj.
Qed.

(** ** Further properties: reconciliation *)

(** X15: [cleanDB] is idempotent against an unchanged filesystem.  When
    the stale paths are no more than the engine's limit on host parameters
    allows, every path of the catalog exists after one run, so a second
    run executes the [SELECT] only, changes no relation and deletes no
    file.  When they are more, the first run raises
    [sqlite3.OperationalError] and changes no relation, and so does a
    second run. *)
Theorem cleanDB_twice (w : world) :
  (fits (List.length (stale_paths (db w))) ->
   exists w1,
     cleanDB w = (inr tt, w1) /\
     (forall r, In r (MEDIA (db w1)) -> pathExist fs (m_path r) = true) /\
     cleanDB w1
     = (inr tt, mkWorld (db w1) (trace w1 ++ [Executed SelectPaths]))) /\
  (~ fits (List.length (stale_paths (db w))) ->
   exists w1 w2,
     cleanDB w = (inl OperationalError, w1) /\ db w1 = db w /\
     cleanDB w1 = (inl OperationalError, w2) /\ db w2 = db w).
Proof.
  split; intros Hfit.
  - assert (Hrun : exists w1,
               cleanDB w = (inr tt, w1) /\
               MEDIA (db w1)
               = filter (fun r => pathExist fs (m_path r)) (MEDIA (db w))).
    { destruct (stale_paths (db w)) as [|p0 rest] eqn:Hs.
      - pose proof (proj1 (stale_paths_nil (db w)) Hs) as Hall.
        rewrite (cleanDB_nothing_stale w Hall). eexists.
        split; [reflexivity|]. simpl. symmetry. apply filter_all. exact Hall.
      - assert (Hne : stale_paths (db w) <> []) by (rewrite Hs; discriminate).
        rewrite <- Hs in Hfit. rewrite (cleanDB_deletes w Hne Hfit).
        eexists. split; reflexivity. }
    destruct Hrun as [w1 [Hrun Hm]].
    exists w1. split; [exact Hrun|].
    assert (Hall : forall r, In r (MEDIA (db w1)) ->
                             pathExist fs (m_path r) = true).
    { intros r Hr. rewrite Hm in Hr. apply filter_In in Hr. apply Hr. }
    split; [exact Hall|]. apply cleanDB_nothing_stale. exact Hall.
  - rewrite (cleanDB_refused w Hfit). eexists. eexists.
    split; [reflexivity|]. split; [reflexivity|].
    split; [apply cleanDB_refused; exact Hfit|reflexivity].
Qed.


(** ** Further properties: the keys under the other operations *)

Lemma NoDup_map_filter {A B} (f : A -> B) (g : A -> bool) (l : list A) :
  NoDup (map f l) -> NoDup (map f (filter g l)).
Proof.
  induction l as [|x l IH]; simpl; intros Hnd; [constructor|].
  inversion Hnd as [|? ? Hx Hl]; subst.
  destruct (g x); simpl; [|auto]. constructor; [|auto].
  intros Hin. apply Hx. apply in_map_iff in Hin.
  destruct Hin as [y [Hy Hin]]. apply filter_In in Hin.
  rewrite <- Hy. apply in_map. apply Hin.
Qed.

Lemma toggle_keeps_keys (paths : list string) (hidden : Z) (s : store) :
  keys_ok s ->
  keys_ok (with_media s
             (map (fun r => if path_in paths r then set_hidden hidden r
                            else r) (MEDIA s))).
Proof.
  intros [Hid [Hhash Hrest]]. unfold keys_ok. simpl.
  rewrite !map_map.
  rewrite (map_ext _ m_imageID)
    by (intros r; destruct (path_in paths r); reflexivity).
  rewrite (map_ext
             (fun r => m_hash (if path_in paths r then set_hidden hidden r
                               else r)) m_hash)
    by (intros r; destruct (path_in paths r); reflexivity).
  auto.
Qed.

Lemma delete_keeps_keys (paths : list string) (s : store) :
  keys_ok s ->
  keys_ok
    (mkStore
       (filter (fun r => negb (path_in paths r)) (MEDIA s))
       (CLASS s)
       (if cascade eng
        then filter
               (fun j => negb (existsb (fun r => m_imageID r =? j_imageID j)
                                 (filter (path_in paths) (MEDIA s))))
               (JUNCTION s)
        else JUNCTION s)
       (media_seq s) (class_seq s)).
Proof.
  intros [Hid [Hhash [Hcid [Hlab Hj]]]]. unfold keys_ok. simpl.
  split; [apply NoDup_map_filter; exact Hid|].
  split; [apply NoDup_map_filter; exact Hhash|].
  split; [exact Hcid|]. split; [exact Hlab|].
  destruct (cascade eng); [apply NoDup_filter|]; exact Hj.
Qed.

(** X16: the operations that hide, show and delete keep the keys of the
    schema: after [toggleVisibility], [hideByClass], [unhideByClass],
    [deleteFromDB], [deleteByClass] or [cleanDB] no two items share an
    [imageID] or a hash, no two classes a [classID] or a label, and no
    pair is linked twice, if that held before.  Each of them either
    returns or raises [sqlite3.OperationalError] (a tuple of paths beyond
    the engine's limit on host parameters), and the keys hold either
    way. *)
Theorem visibility_and_deletion_keep_keys (w : world) :
  keys_ok (db w) ->
  (forall paths hidden,
      exists r w', toggleVisibility paths hidden w = (r, w') /\
                   (r = inr tt \/ r = inl OperationalError) /\
                   keys_ok (db w')) /\
  (forall classes,
      exists r w', hideByClass classes w = (r, w') /\
                   (r = inr tt \/ r = inl OperationalError) /\
                   keys_ok (db w')) /\
  (forall classes,
      exists r w', unhideByClass classes w = (r, w') /\
                   (r = inr tt \/ r = inl OperationalError) /\
                   keys_ok (db w')) /\
  (forall paths,
      exists r w', deleteFromDB paths w = (r, w') /\
                   (r = inr tt \/ r = inl OperationalError) /\
                   keys_ok (db w')) /\
  (forall classes,
      exists r w', deleteByClass classes w = (r, w') /\
                   (r = inr tt \/ r = inl OperationalError) /\
                   keys_ok (db w')) /\
  (exists r w', cleanDB w = (r, w') /\
                (r = inr tt \/ r = inl OperationalError) /\
                keys_ok (db w')).
Proof.
  intros Hk. split; [|split; [|split; [|split; [|split]]]].
  - intros paths hidden.
    destruct (fits_dec (1 + List.length paths)) as [Hfit|Hfit].
    + rewrite (toggleVisibility_run _ _ _ Hfit). eexists. eexists.
      split; [reflexivity|]. split; [left; reflexivity|].
      apply toggle_keeps_keys. exact Hk.
    + rewrite (toggleVisibility_refused _ _ _ Hfit). eexists. eexists.
      split; [reflexivity|]. split; [right; reflexivity|exact Hk].
  - intros classes.
    destruct (fits_dec
                (1 + List.length
                       (flat_map snd
                          (requested classes
                             (groups_of (plan eng (db w) ColPath 0))))))
      as [Hfit|Hfit].
    + destruct (hideByClass_run classes w Hfit) as [paths [tr [Hrun _]]].
      eexists. eexists. split; [exact Hrun|]. split; [left; reflexivity|].
      apply toggle_keeps_keys. exact Hk.
    + destruct (hideByClass_refused classes w Hfit) as [tr Hrun].
      eexists. eexists. split; [exact Hrun|].
      split; [right; reflexivity|exact Hk].
  - intros classes.
    destruct (fits_dec
                (1 + List.length
                       (flat_map snd
                          (requested classes
                             (groups_of (plan eng (db w) ColPath 1))))))
      as [Hfit|Hfit].
    + destruct (unhideByClass_run classes w Hfit) as [paths [tr [Hrun _]]].
      eexists. eexists. split; [exact Hrun|]. split; [left; reflexivity|].
      apply toggle_keeps_keys. exact Hk.
    + destruct (unhideByClass_refused classes w Hfit) as [tr Hrun].
      eexists. eexists. split; [exact Hrun|].
      split; [right; reflexivity|exact Hk].
  - intros paths.
    destruct (fits_dec (List.length paths)) as [Hfit|Hfit].
    + rewrite (deleteFromDB_run _ _ Hfit). eexists. eexists.
      split; [reflexivity|]. split; [left; reflexivity|].
      apply delete_keeps_keys. exact Hk.
    + rewrite (deleteFromDB_refused _ _ Hfit). eexists. eexists.
      split; [reflexivity|]. split; [right; reflexivity|exact Hk].
  - intros classes. unfold deleteByClass.
    rewrite (bind_ok _ _ _ _ _ (tupleByClass_run classes 0 ColPath w)).
    destruct (fits_dec
                (List.length
                   (flat_map snd
                      (requested classes
                         (groups_of (plan eng (db w) ColPath 0))))))
      as [Hfit|Hfit].
    + rewrite (deleteFromDB_run _ _ Hfit). eexists. eexists.
      split; [reflexivity|]. split; [left; reflexivity|].
      apply (delete_keeps_keys _ (db w)). exact Hk.
    + rewrite (deleteFromDB_refused _ _ Hfit). eexists. eexists.
      split; [reflexivity|]. split; [right; reflexivity|exact Hk].
  - destruct (fits_dec (List.length (stale_paths (db w)))) as [Hfit|Hfit].
    + destruct (stale_paths (db w)) as [|p0 rest] eqn:Hs.
      * rewrite (cleanDB_nothing_stale w (proj1 (stale_paths_nil (db w)) Hs)).
        eexists. eexists. split; [reflexivity|].
        split; [left; reflexivity|exact Hk].
      * assert (Hne : stale_paths (db w) <> [])
          by (rewrite Hs; discriminate).
        rewrite <- Hs in Hfit. rewrite (cleanDB_deletes w Hne Hfit).
        eexists. eexists. split; [reflexivity|]. split; [left; reflexivity|].
        simpl. rewrite <- keep_present.
        apply (delete_keeps_keys _ (db w)). exact Hk.
    + rewrite (cleanDB_refused w Hfit). eexists. eexists.
      split; [reflexivity|]. split; [right; reflexivity|exact Hk].
Qed.

(** ** Further properties: the grouping *)

Lemma flat_map_split_not_nil (vs : list string) :
  vs <> [] -> flat_map Text.split vs <> [].
Proof.
  destruct vs as [|v vs]; [intros H; contradiction|]. intros _. simpl.
  pose proof (split_not_nil v) as Hn.
  destruct (Text.split v); [contradiction|discriminate].
Qed.

(** X17: the dictionary of [groupByClass] has one key for each label that
    has a member of the requested visibility and no other key: a class
    without such a member is absent (subscripting it raises [KeyError]),
    and no key is mapped to an empty tuple.  The call changes no
    relation. *)
Theorem groupByClass_keys (hidden : Z) (groupOf : column) (w : world) :
  exists groups,
    groupByClass hidden groupOf w
    = (inr groups,
       mkWorld (db w)
         (trace w ++ [Executed (SelectGroupConcat groupOf hidden)])) /\
    NoDup (dict_keys groups) /\
    (forall label,
        (exists t, dict_get groups label = Some t) <->
        (exists i, member (db w) i label /\ m_hidden i = hidden)) /\
    (forall label t, dict_get groups label = Some t -> t <> []) /\
    (forall label,
        ~ (exists i, member (db w) i label /\ m_hidden i = hidden) ->
        subscript groups label
          (mkWorld (db w)
             (trace w ++ [Executed (SelectGroupConcat groupOf hidden)]))
        = (inl KeyError,
           mkWorld (db w)
             (trace w ++ [Executed (SelectGroupConcat groupOf hidden)]))).
Proof.
  exists (groups_of (plan eng (db w) groupOf hidden)).
  split; [apply groupByClass_run|]. split; [apply groups_of_NoDup|].
  assert (Hsome : forall label t,
            dict_get (groups_of (plan eng (db w) groupOf hidden)) label
            = Some t ->
            (exists i, member (db w) i label /\ m_hidden i = hidden) /\
            t <> []).
  { intros label t Hget. apply groups_of_get in Hget.
    destruct Hget as [Hin ->]. apply in_map_iff in Hin.
    destruct Hin as [[k v] [Hk Hin]]. simpl in Hk. subst k. split.
    - apply (Permutation_in _ (plan_perm _ _ _)) in Hin.
      apply joined_In in Hin. destruct Hin as [i [Hm [Hh _]]].
      exists i. auto.
    - apply flat_map_split_not_nil. intros Hnil.
      assert (Hf : In (label, v)
                      (filter (fun r => String.eqb (fst r) label)
                              (plan eng (db w) groupOf hidden)))
        by (apply filter_In; split; [exact Hin|apply String.eqb_refl]).
      apply (in_map snd) in Hf. rewrite Hnil in Hf. exact Hf. }
  split; [|split].
  - intros label. split.
    + intros [t Hget]. apply (Hsome label t Hget).
    + intros [i [Hm Hh]].
      destruct (grouped_member (db w) groupOf hidden i label Hm Hh)
        as [t [Hget _]].
      exists t. exact Hget.
  - intros label t Hget. apply (Hsome label t Hget).
  - intros label Hnone. unfold subscript.
    destruct (dict_get (groups_of (plan eng (db w) groupOf hidden)) label)
      as [t|] eqn:Hget; [exfalso|reflexivity].
    apply Hnone. apply (Hsome label t Hget).
Qed.

(** X18: [tupleByClass] looks at its class tuple only through membership:
    two tuples with the same labels, in any order and with any
    repetitions, give the same result, in the same order, with the same
    single statement executed. *)
Theorem tupleByClass_same_labels (classes classes' : list string)
    (hidden : Z) (groupOf : column) (w : world) :
  (forall label, In label classes <-> In label classes') ->
  tupleByClass classes hidden groupOf w
  = tupleByClass classes' hidden groupOf w.
Proof.
  intros Hsame. rewrite !tupleByClass_run. f_equal. f_equal. f_equal.
  unfold requested. apply filter_ext. intros [k t]. simpl.
  destruct (Text.mem k classes') eqn:Hm.
  - apply mem_In. apply Hsame. apply mem_In. exact Hm.
  - apply mem_not_In. rewrite Hsame. apply mem_not_In. exact Hm.
Qed.


(** ** Further properties: statement texts and composition *)

Lemma count_placeholders_app (a b : string) :
  count_placeholders (a ++ b)%string
  = (count_placeholders a + count_placeholders b)%nat.
Proof.
  induction a as [|c a IH]; simpl; [reflexivity|]. rewrite IH. lia.
Qed.

Lemma chars_str_mul (n : nat) : chars (str_mul "?" n) = repeat "?"%string n.
Proof. induction n as [|n IH]; simpl; [|rewrite IH]; reflexivity. Qed.

Lemma count_placeholders_join (n : nat) :
  count_placeholders (Text.join (repeat "?"%string n)) = n.
Proof.
  induction n as [|n IH]; [reflexivity|].
  destruct n as [|m]; [reflexivity|].
  change (Text.join (repeat "?"%string (S (S m))))
    with ("?" ++ String Text.comma (Text.join (repeat "?"%string (S m))))%string.
  rewrite count_placeholders_app. simpl count_placeholders at 1.
  change (count_placeholders
            (String Text.comma (Text.join (repeat "?"%string (S m)))))
    with (count_placeholders (Text.join (repeat "?"%string (S m)))).
  rewrite IH. reflexivity.
Qed.

(** X19: the statement texts that [toggleVisibility] and [deleteFromDB]
    build have exactly as many [?] as parameters are bound to them, for
    any number of paths, none included; and the text depends on the number
    of paths only, never on their content. *)
Theorem placeholders_match_parameters (hidden : Z) (paths : list string) :
  count_placeholders (toggleVisibility_query paths)
  = List.length (toggleVisibility_params hidden paths) /\
  count_placeholders (deleteFromDB_query paths)
  = List.length (deleteFromDB_params paths) /\
  (forall paths',
      List.length paths' = List.length paths ->
      toggleVisibility_query paths' = toggleVisibility_query paths /\
      deleteFromDB_query paths' = deleteFromDB_query paths).
Proof.
  assert (Hp : count_placeholders (placeholders paths) = List.length paths).
  { unfold placeholders. rewrite chars_str_mul. apply count_placeholders_join. }
  split; [|split].
  - unfold toggleVisibility_query, toggleVisibility_params.
    rewrite !count_placeholders_app, Hp. simpl. rewrite length_map. lia.
  - unfold deleteFromDB_query, deleteFromDB_params.
    rewrite !count_placeholders_app, Hp. simpl. rewrite length_map. lia.
  - intros paths' Hlen.
    unfold toggleVisibility_query, deleteFromDB_query, placeholders.
    rewrite Hlen. split; reflexivity.
Qed.

Lemma mem_app (x : string) (a b : list string) :
  Text.mem x (a ++ b) = Text.mem x a || Text.mem x b.
Proof. unfold Text.mem. apply existsb_app. Qed.

(** X20: how the path-keyed updates compose, on the relations.  A second
    [toggleVisibility] on the same paths overrides the first; toggling a
    concatenation of path tuples is toggling one after the other, when the
    concatenation is within the engine's limit on host parameters; and a
    second [deleteFromDB] on the same paths changes nothing more.  The
    first and the last hold beyond the limit too, where both sides leave
    the relations as they were. *)
Theorem path_updates_compose (w : world) :
  (forall paths h h',
      db_of ((toggleVisibility paths h ;; toggleVisibility paths h') w)
      = db_of (toggleVisibility paths h' w)) /\
  (forall paths paths' h,
      fits (1 + List.length (paths ++ paths')) ->
      db_of ((toggleVisibility paths h ;; toggleVisibility paths' h) w)
      = db_of (toggleVisibility (paths ++ paths') h w)) /\
  (forall paths,
      db_of ((deleteFromDB paths ;; deleteFromDB paths) w)
      = db_of (deleteFromDB paths w)).
Proof.
  split; [|split].
  - intros paths h h'.
    destruct (fits_dec (1 + List.length paths)) as [Hfit|Hfit].
    + rewrite (bind_ok _ _ _ _ _ (toggleVisibility_run paths h w Hfit)).
      rewrite !toggleVisibility_run by exact Hfit.
      unfold db_of, with_media. simpl.
      f_equal. rewrite map_map. apply map_ext. intros r.
      unfold path_in. destruct (Text.mem (m_path r) paths) eqn:Hm; simpl;
        rewrite Hm; reflexivity.
    + unfold bind. rewrite !toggleVisibility_refused by exact Hfit.
      reflexivity.
  - intros paths paths' h Hfit.
    assert (Hfit1 : fits (1 + List.length paths)).
    { apply (fits_le _ _ (le_n_S _ _ (Nat.le_add_r _ (List.length paths')))).
      rewrite <- length_app. exact Hfit. }
    assert (Hfit2 : fits (1 + List.length paths')).
    { apply (fits_le _ _ (le_n_S _ _ (Nat.le_add_l _ (List.length paths)))).
      rewrite <- length_app. exact Hfit. }
    rewrite (bind_ok _ _ _ _ _ (toggleVisibility_run paths h w Hfit1)).
    rewrite (toggleVisibility_run _ _ _ Hfit2).
    rewrite (toggleVisibility_run _ _ _ Hfit).
    unfold db_of, with_media. simpl.
    f_equal. rewrite map_map. apply map_ext. intros r.
    unfold path_in. rewrite mem_app.
    destruct (Text.mem (m_path r) paths) eqn:Hm; simpl.
    + destruct (Text.mem (m_path r) paths'); reflexivity.
    + reflexivity.
  - intros paths.
    destruct (fits_dec (List.length paths)) as [Hfit|Hfit].
    2:{ unfold bind. rewrite !deleteFromDB_refused by exact Hfit.
        reflexivity. }
    rewrite (bind_ok _ _ _ _ _ (deleteFromDB_run paths w Hfit)).
    rewrite !deleteFromDB_run by exact Hfit. unfold db_of. simpl.
    assert (Hkept : filter (fun r => negb (path_in paths r))
                      (filter (fun r => negb (path_in paths r))
                              (MEDIA (db w)))
                    = filter (fun r => negb (path_in paths r)) (MEDIA (db w))).
    { apply filter_all. intros r Hr. apply filter_In in Hr. apply Hr. }
    assert (Hgone : filter (path_in paths)
                      (filter (fun r => negb (path_in paths r))
                              (MEDIA (db w))) = []).
    { apply filter_none. intros r Hr. apply filter_In in Hr.
      destruct Hr as [_ Hn]. apply negb_true_iff in Hn. exact Hn. }
    rewrite Hkept, Hgone. f_equal.
    destruct (cascade eng); [|reflexivity].
    apply filter_all. reflexivity.
Qed.


(** ** Further properties: integer columns, and calls of [deleteFile] *)

Lemma string_of_uint_comma_free (u : Decimal.uint) :
  Text.has_comma (NilEmpty.string_of_uint u) = false.
Proof. induction u; simpl; auto. Qed.

Lemma of_Z_comma_free (z : Z) : comma_free (Text.of_Z z).
Proof.
  unfold comma_free, Text.of_Z. destruct (Z.to_int z) as [u|u]; simpl.
  - destruct u; simpl; auto using string_of_uint_comma_free.
  - destruct u; simpl; auto using string_of_uint_comma_free.
Qed.

(** X21: projected on an integer column ([imageID] or [hidden]) the
    grouping loses nothing: the text of an integer has no comma, so every
    tuple of [groupByClass] holds exactly the values of the members of its
    class at the requested visibility, and [tupleByClass] exactly the
    values of the requested rows of the join, up to order. *)
Theorem integer_columns_are_faithful (hidden : Z) (groupOf : column)
    (classes : list string) (w : world) :
  groupOf = ColImageID \/ groupOf = ColHidden ->
  exists groups t w1 w2,
    groupByClass hidden groupOf w = (inr groups, w1) /\
    (forall label values,
        dict_get groups label = Some values ->
        Permutation values
          (map snd (filter (fun r => String.eqb (fst r) label)
                           (joined (db w) groupOf hidden)))) /\
    tupleByClass classes hidden groupOf w = (inr t, w2) /\
    Permutation t
      (map snd (requested classes (joined (db w) groupOf hidden))).
Proof.
  intros Hcol.
  assert (Hfree : forall i, comma_free (column_text groupOf i)).
  { intros i. destruct Hcol as [-> | ->]; apply of_Z_comma_free. }
  eexists. eexists. eexists. eexists.
  split; [apply groupByClass_run|]. split.
  - intros label values Hget. apply groups_of_get in Hget.
    destruct Hget as [_ ->]. rewrite flat_map_split_comma_free.
    + apply Permutation_map, filter_perm, plan_perm.
    + apply Forall_forall. intros v Hv.
      apply in_map_iff in Hv. destruct Hv as [[k v'] [Hs Hin]].
      simpl in Hs. subst v'. apply filter_In in Hin. destruct Hin as [Hin _].
      apply (Permutation_in _ (plan_perm _ _ _)) in Hin.
      apply joined_In in Hin. destruct Hin as [i [_ [_ Hv]]].
      rewrite <- Hv. apply Hfree.
  - split; [apply tupleByClass_run|].
    apply tupleByClass_values. intros i label _ _ _. apply Hfree.
Qed.

Lemma file_deletions_app (a b : list event) :
  file_deletions (a ++ b) = file_deletions a ++ file_deletions b.
Proof.
  induction a as [|e a IH]; simpl; [reflexivity|].
  destruct e; simpl; rewrite IH; reflexivity.
Qed.

Lemma assign_class_trace (imageID : Z) (className : string) (w : world) :
  exists w',
    assign_class imageID tt className w = (inr tt, w') /\
    file_deletions (trace w') = file_deletions (trace w).
Proof.
  unfold assign_class, try_except, bind, executeQuery. simpl.
  destruct (existsb (fun c => String.eqb (c_class c) className)
                    (CLASS (db w))) eqn:Hc; simpl.
  - destruct (existsb_filter_first _ _ Hc) as [c0 [rest Hf]].
    rewrite Hf. simpl.
    destruct (existsb (junction_eqb (mkJunction imageID (c_classID c0)))
                      (JUNCTION (db w)));
      eexists; (split; [reflexivity|]); simpl;
      rewrite !file_deletions_app; simpl; rewrite !app_nil_r; reflexivity.
  - destruct (existsb (junction_eqb
                         (mkJunction imageID
                            (new_rowid (map c_classID (CLASS (db w)))
                                       (class_seq (db w)))))
                      (JUNCTION (db w)));
      eexists; (split; [reflexivity|]); simpl;
      rewrite !file_deletions_app; simpl; rewrite !app_nil_r; reflexivity.
Qed.

Lemma assign_loop_trace (imageID : Z) (imgClass : list string) (w : world) :
  exists w',
    for_each imgClass (assign_class imageID) tt w = (inr tt, w') /\
    file_deletions (trace w') = file_deletions (trace w).
Proof.
  revert w. induction imgClass as [|c l IH]; intros w; simpl.
  - exists w. split; reflexivity.
  - destruct (assign_class_trace imageID c w) as [w1 [Hrun Ht]].
    destruct (IH w1) as [w2 [Hrun2 Ht2]].
    exists w2. rewrite (bind_ok _ _ _ _ _ Hrun). split; [exact Hrun2|].
    congruence.
Qed.

(** X22: files are deleted by the three deleting operations only.
    [insertIntoDB], [toggleVisibility], [hideByClass], [unhideByClass],
    [hashExist], [groupByClass] and [tupleByClass] never call
    [deleteFile], whether they return or raise; [deleteFromDB] calls it
    exactly once, with the paths it was given, when these are no more
    than the engine's limit on host parameters allows, and not at all
    when they are more and the [DELETE] is refused. *)
Theorem deleteFile_only_when_deleting (w : world) :
  (forall file imgClass imgHash,
      exists w', insertIntoDB file imgClass imgHash w = (inr tt, w') /\
                 file_deletions (trace w') = file_deletions (trace w)) /\
  (forall paths hidden,
      file_deletions (trace_of (toggleVisibility paths hidden w))
      = file_deletions (trace w)) /\
  (forall classes,
      file_deletions (trace_of (hideByClass classes w))
      = file_deletions (trace w)) /\
  (forall classes,
      file_deletions (trace_of (unhideByClass classes w))
      = file_deletions (trace w)) /\
  (forall hashValue,
      exists b w', hashExist hashValue w = (inr b, w') /\
                   file_deletions (trace w') = file_deletions (trace w)) /\
  (forall hidden groupOf,
      exists groups w', groupByClass hidden groupOf w = (inr groups, w') /\
                        file_deletions (trace w') = file_deletions (trace w)) /\
  (forall classes hidden groupOf,
      exists t w', tupleByClass classes hidden groupOf w = (inr t, w') /\
                   file_deletions (trace w') = file_deletions (trace w)) /\
  (forall paths,
      (fits (List.length paths) ->
       exists w', deleteFromDB paths w = (inr tt, w') /\
                  file_deletions (trace w')
                  = file_deletions (trace w) ++ [paths]) /\
      (~ fits (List.length paths) ->
       exists w', deleteFromDB paths w = (inl OperationalError, w') /\
                  file_deletions (trace w') = file_deletions (trace w))).
Proof.
  repeat match goal with |- _ /\ _ => split end.
  - intros file imgClass imgHash.
    destruct (existsb (fun r => String.eqb (m_hash r) imgHash) (MEDIA (db w)))
      eqn:He.
    + rewrite (insertIntoDB_existing _ _ _ _ He). eexists.
      split; [reflexivity|]. simpl. rewrite file_deletions_app. simpl.
      apply app_nil_r.
    + destruct (assign_loop_trace
                  (new_rowid (map m_imageID (MEDIA (db w))) (media_seq (db w)))
                  imgClass
                  (mkWorld
                     (mkStore
                        (MEDIA (db w)
                         ++ [mkMedia (new_rowid (map m_imageID (MEDIA (db w)))
                                                (media_seq (db w)))
                                     imgHash file 0])
                        (CLASS (db w)) (JUNCTION (db w))
                        (new_seq (media_seq (db w))
                           (new_rowid (map m_imageID (MEDIA (db w)))
                                      (media_seq (db w))))
                        (class_seq (db w)))
                     (trace w ++ [Executed (InsertMedia imgHash file)])))
        as [w1 [Hloop Ht]].
      exists w1. split; [apply (insertIntoDB_fresh_loop _ _ _ _ _ He Hloop)|].
      rewrite Ht. simpl. rewrite file_deletions_app. simpl. apply app_nil_r.
  - intros paths hidden. rewrite toggleVisibility_trace.
    rewrite file_deletions_app. simpl. apply app_nil_r.
  - intros classes. unfold hideByClass.
    rewrite (bind_ok _ _ _ _ _ (tupleByClass_run classes 0 ColPath w)).
    rewrite toggleVisibility_trace. simpl.
    rewrite !file_deletions_app. simpl. rewrite !app_nil_r. reflexivity.
  - intros classes. unfold unhideByClass.
    rewrite (bind_ok _ _ _ _ _ (tupleByClass_run classes 1 ColPath w)).
    rewrite toggleVisibility_trace. simpl.
    rewrite !file_deletions_app. simpl. rewrite !app_nil_r. reflexivity.
  - intros hashValue. rewrite hashExist_run. eexists. eexists.
    split; [reflexivity|]. simpl. rewrite file_deletions_app. simpl.
    apply app_nil_r.
  - intros hidden groupOf. rewrite groupByClass_run. eexists. eexists.
    split; [reflexivity|]. simpl. rewrite file_deletions_app. simpl.
    apply app_nil_r.
  - intros classes hidden groupOf. rewrite tupleByClass_run. eexists. eexists.
    split; [reflexivity|]. simpl. rewrite file_deletions_app. simpl.
    apply app_nil_r.
  - intros paths. split; intros Hfit.
    + rewrite (deleteFromDB_run _ _ Hfit). eexists.
      split; [reflexivity|]. simpl. rewrite file_deletions_app. reflexivity.
    + rewrite (deleteFromDB_refused _ _ Hfit). eexists.
      split; [reflexivity|]. simpl. rewrite file_deletions_app. simpl.
      apply app_nil_r.
Qed.

End Catalog.

(** ** The statements at concrete catalogs

    The engine of these instances is [nested_loop_engine]. *)

Lemma nested_loop_plan_perm (s : store) (groupOf : column) (hidden : Z) :
  Permutation (plan nested_loop_engine s groupOf hidden)
              (joined s groupOf hidden).
Proof. apply Permutation_refl. Qed.

Ltac member_cases H :=
  let Hin := fresh "Hin" in
  let c := fresh "c" in
  let j := fresh "j" in
  let Hc := fresh "Hc" in
  let Hj := fresh "Hj" in
  let Hl := fresh "Hl" in
  let Hjc := fresh "Hjc" in
  let Hji := fresh "Hji" in
  destruct H as [Hin [c [j [Hc [Hj [Hl [Hjc Hji]]]]]]];
  vm_compute in Hin, Hc, Hj;
  repeat match goal with
         | D : _ \/ _ |- _ => destruct D
         | F : False |- _ => destruct F
         end;
  subst; simpl in *.

(** C1: the round trip of a re-insert at a new path that contains a comma.
    The group of [cat] holds the two pieces of the new path, not the path
    itself. *)
Theorem reinsert_with_comma_path :
  result_of
    (run (reinsert_then_group nested_loop_engine
            "/img/1.png" "/img/a,b.png" "cat" "aa11")
         empty_store)
  = inr [("cat", ["/img/a"; "b.png"])].
Proof. vm_compute. reflexivity. Qed.

(** C2, counterexample: the only member of [cat] is hidden; after
    [deleteByClass] on [cat] it is still in [MEDIA], and what was deleted
    is the empty tuple of paths. *)
Lemma deleteByClass_keeps_hidden_member :
  member (db_of (run (hidden_cat nested_loop_engine) empty_store))
         (mkMedia 1 "aa11" "/img/1.png" 1) "cat" /\
  result_of (run (hidden_cat nested_loop_engine ;;
                  deleteByClass nested_loop_engine ["cat"])
                 empty_store) = inr tt /\
  MEDIA (db_of (run (hidden_cat nested_loop_engine ;;
                     deleteByClass nested_loop_engine ["cat"])
                    empty_store))
  = [mkMedia 1 "aa11" "/img/1.png" 1] /\
  In (DeleteFile [])
     (trace_of (run (hidden_cat nested_loop_engine ;;
                     deleteByClass nested_loop_engine ["cat"])
                    empty_store)).
Proof.
  split; [|split; [|split]].
  - split; [vm_compute; auto|].
    exists (mkClass 1 "cat"), (mkJunction 1 1). vm_compute. auto 10.
  - vm_compute. reflexivity.
  - vm_compute. reflexivity.
  - vm_compute. auto 20.
Qed.

(** C3, counterexample: one item tagged [cat] and [dog]; asking for both
    classes returns its path twice. *)
Lemma tupleByClass_repeats_a_path :
  exists t,
    result_of (run (cat_and_dog nested_loop_engine ;;
                    tupleByClass nested_loop_engine
                      ["cat"; "dog"] 0 ColPath)
                   empty_store) = inr t /\
    t = ["/img/1.png"; "/img/1.png"] /\
    ~ NoDup t.
Proof.
  eexists. split; [vm_compute; reflexivity|]. split; [reflexivity|].
  intros H. inversion H as [|? ? Hn _]. apply Hn. left. reflexivity.
Qed.

(** C4, counterexample: every member of [cat] is visible, a hidden [dog]
    has the same path; after [hideByClass] and [unhideByClass] on [cat]
    the [dog] is visible too. *)
Lemma hide_then_unhide_shows_more :
  (forall i,
      member (db_of (run (shared_path nested_loop_engine)
                         empty_store)) i "cat" ->
      m_hidden i = 0) /\
  visible_items (db_of (run (shared_path nested_loop_engine)
                            empty_store))
  = [mkMedia 1 "aa11" "/img/a.png" 0] /\
  result_of (run (shared_path nested_loop_engine ;;
                  hideByClass nested_loop_engine ["cat"] ;;
                  unhideByClass nested_loop_engine ["cat"])
                 empty_store) = inr tt /\
  visible_items
    (db_of (run (shared_path nested_loop_engine ;;
                 hideByClass nested_loop_engine ["cat"] ;;
                 unhideByClass nested_loop_engine ["cat"])
                empty_store))
  = [mkMedia 1 "aa11" "/img/a.png" 0; mkMedia 2 "bb22" "/img/a.png" 0].
Proof.
  split; [|split; [|split]]; try (vm_compute; reflexivity).
  intros i Hm. member_cases Hm; try reflexivity; try discriminate.
Qed.





(** C2, witness: two visible items under [cat], within the limit on host
    parameters; deleting [cat]. *)
Lemma deleteByClass_visible_members_witness :
  exists paths w',
    deleteByClass nested_loop_engine ["cat"]
      (snd (run (two_items_one_class nested_loop_engine
                   "/img/1.png" "aa11" "/img/2.png" "bb22" "cat")
                empty_store))
    = (inr tt, w') /\
    trace w'
    = trace (snd (run (two_items_one_class nested_loop_engine
                         "/img/1.png" "aa11" "/img/2.png" "bb22" "cat")
                      empty_store))
      ++ [Executed (SelectGroupConcat ColPath 0);
          Executed (DeleteMedia paths); DeleteFile paths] /\
    (forall p, In p paths <->
               exists i label,
                 In label ["cat"] /\
                 member
                   (db (snd (run (two_items_one_class nested_loop_engine
                                    "/img/1.png" "aa11" "/img/2.png" "bb22"
                                    "cat")
                                 empty_store))) i label /\
                 m_hidden i = 0 /\ m_path i = p) /\
    (forall r, In r (MEDIA (db w')) <->
               In r (MEDIA
                       (db (snd (run (two_items_one_class nested_loop_engine
                                        "/img/1.png" "aa11" "/img/2.png"
                                        "bb22" "cat")
                                     empty_store)))) /\
               ~ In (m_path r) paths).
Proof.
  destruct (deleteByClass_visible_members nested_loop_engine
              nested_loop_plan_perm ["cat"]
              (snd (run (two_items_one_class nested_loop_engine
                           "/img/1.png" "aa11" "/img/2.png" "bb22" "cat")
                        empty_store)))
    as [paths [Hlen [Hin [Hok _]]]].
  - intros i label _ Hm _. member_cases Hm; reflexivity.
  - exists paths. destruct Hok as [w' [Hrun [Htrace Hmedia]]].
    + rewrite Hlen. vm_compute. discriminate.
    + exists w'. split; [exact Hrun|]. split; [exact Htrace|].
      split; [exact Hin|exact Hmedia].
Defined.

(** C3, witness: two items under [cat]; asking for [cat]. *)
Lemma tupleByClass_one_entry_per_link_witness :
  exists t,
    result_of
      (tupleByClass nested_loop_engine ["cat"] 0 ColPath
         (snd (run (two_items_one_class nested_loop_engine
                      "/img/1.png" "aa11" "/img/2.png" "bb22" "cat")
                   empty_store)))
    = inr t /\ NoDup t.
Proof.
  destruct (tupleByClass_one_entry_per_link nested_loop_engine
              nested_loop_plan_perm ["cat"] 0 ColPath
              (snd (run (two_items_one_class nested_loop_engine
                           "/img/1.png" "aa11" "/img/2.png" "bb22" "cat")
                        empty_store)))
    as [t [Hrun [_ [_ Hnd]]]].
  - intros i label _ Hm _. member_cases Hm; reflexivity.
  - exists t. split; [unfold result_of; rewrite Hrun; reflexivity|].
    apply Hnd.
    + vm_compute. repeat constructor; simpl; intuition discriminate.
    + vm_compute. repeat constructor; simpl; intuition discriminate.
    + vm_compute. repeat constructor; simpl; intuition discriminate.
    + intros i label label' Hl Hl' _ _ _.
      destruct Hl as [<-|[]], Hl' as [<-|[]]. reflexivity.
    + intros i i' label label' _ _ Hm Hm' _ _ E.
      member_cases Hm; member_cases Hm'; try reflexivity; discriminate.
Defined.

(** C4, witness: a visible [cat] and a visible [dog] that share their
    path; hiding and unhiding [cat]. *)
Lemma hide_then_unhide_restores_witness :
  exists w',
    (hideByClass nested_loop_engine ["cat"] ;;
     unhideByClass nested_loop_engine ["cat"])
      (snd (run (shared_path nested_loop_engine ;;
                 unhideByClass nested_loop_engine ["dog"])
                empty_store))
    = (inr tt, w') /\
    db w'
    = db (snd (run (shared_path nested_loop_engine ;;
                    unhideByClass nested_loop_engine ["dog"])
                   empty_store)) /\
    visible_items (db w')
    = visible_items
        (db (snd (run (shared_path nested_loop_engine ;;
                       unhideByClass nested_loop_engine ["dog"])
                      empty_store))).
Proof.
  apply (hide_then_unhide_restores nested_loop_engine
           nested_loop_plan_perm).
  - intros i label _ Hm. split.
    + member_cases Hm; reflexivity.
    + intros r Hr Hp. vm_compute in Hr.
      destruct Hr as [<-|[<-|[]]]; reflexivity.
  - vm_compute. discriminate.
Defined.



(** C7, witness: the hashes [aa11] and [bb22] under [cat]. *)
Lemma insertIntoDB_one_row_per_pair_witness :
  (exists w',
      run (two_items_one_class nested_loop_engine
             "/img/1.png" "aa11" "/img/2.png" "bb22" "cat") empty_store
      = (inr tt, w') /\
      CLASS (db w') = [mkClass 1 "cat"] /\
      JUNCTION (db w') = [mkJunction 1 1; mkJunction 2 1]) /\
  (forall imageID classID s,
      In (mkJunction imageID classID) (JUNCTION s) ->
      run_query nested_loop_engine
        (InsertOrIgnoreJunction imageID classID) s = inr (tt, s)) /\
  (forall file imgClass imgHash w,
      NoDup (JUNCTION (db w)) ->
      exists w',
        insertIntoDB nested_loop_engine file imgClass imgHash w
        = (inr tt, w') /\
        NoDup (JUNCTION (db w'))).
Proof.
  apply (insertIntoDB_one_row_per_pair nested_loop_engine
           "/img/1.png" "aa11" "/img/2.png" "bb22" "cat").
  discriminate.
Defined.

(** C8, witness: a catalog with [cat] and [dog]; asking for [bird], which
    does not exist. *)
Lemma tupleByClass_no_member_witness :
  exists w',
    tupleByClass nested_loop_engine ["bird"] 0 ColPath
      (snd (run (cat_and_dog nested_loop_engine) empty_store))
    = (inr [], w') /\
    db w' = db (snd (run (cat_and_dog nested_loop_engine)
                         empty_store)).
Proof.
  apply (tupleByClass_no_member nested_loop_engine
           nested_loop_plan_perm).
  intros label i Hl Hm. destruct Hl as [<-|[]].
  member_cases Hm; discriminate.
Defined.

(** C9, witness: the catalog after a re-insert at [/img/a,b.png]. *)
Lemma groupByClass_splits_at_commas_witness :
  exists groups,
    result_of
      (groupByClass nested_loop_engine 0 ColPath
         (snd (run (reinsert_then_group nested_loop_engine
                      "/img/1.png" "/img/a,b.png" "cat" "aa11")
                   empty_store)))
    = inr groups /\
    dict_get groups "cat" = Some ["/img/a"; "b.png"] /\
    ~ In "/img/a,b.png" ["/img/a"; "b.png"].
Proof.
  destruct (groupByClass_splits_at_commas nested_loop_engine
              nested_loop_plan_perm 0 ColPath
              (snd (run (reinsert_then_group nested_loop_engine
                           "/img/1.png" "/img/a,b.png" "cat" "aa11")
                        empty_store)))
    as [groups [Hrun _]].
  exists groups. unfold result_of. rewrite Hrun. split; [reflexivity|].
  inversion Hrun. split; [vm_compute; reflexivity|].
  simpl. intuition discriminate.
Defined.

(** The reconciliation example of C5: of the paths [/img/1.png],
    [/img/2.png] and [/img/3.png] only the first is on disk; [cleanDB]
    keeps the first item and sends the other two paths to one [DELETE] and
    to [deleteFile]. *)
Example cleanDB_three_items :
  run (three_items nested_loop_engine ;;
       cleanDB nested_loop_engine only_first_on_disk) empty_store
  = (inr tt,
     mkWorld
       (mkStore [mkMedia 1 "aa11" "/img/1.png" 0] [] [] 3 0)
       [Executed (InsertMedia "aa11" "/img/1.png");
        Executed (InsertMedia "bb22" "/img/2.png");
        Executed (InsertMedia "cc33" "/img/3.png");
        Executed SelectPaths;
        Print ["/img/2.png"; "/img/3.png"];
        Executed (DeleteMedia ["/img/2.png"; "/img/3.png"]);
        DeleteFile ["/img/2.png"; "/img/3.png"]]).
Proof. vm_compute. reflexivity. Qed.

(** The scenario of the specification: two items, [cat] and [dog]. *)
Example groupByClass_cat_dog :
  result_of
    (run (insertIntoDB nested_loop_engine "/img/1.png" ["cat"] "aa11" ;;
          insertIntoDB nested_loop_engine "/img/2.png" ["cat"; "dog"] "bb22" ;;
          groupByClass nested_loop_engine 0 ColPath) empty_store)
  = inr [("cat", ["/img/1.png"; "/img/2.png"]); ("dog", ["/img/2.png"])].
Proof. vm_compute. reflexivity. Qed.

(** ** The further properties at concrete catalogs *)

Lemma rowid_engine_perm (s : store) (groupOf : column) (hidden : Z) :
  Permutation (plan rowid_engine s groupOf hidden) (joined s groupOf hidden).
Proof. apply Permutation_refl. Qed.

Ltac concrete_keys :=
  vm_compute; repeat split; repeat constructor; simpl; intuition discriminate.

Ltac concrete_links :=
  let j := fresh "j" in
  let Hj := fresh "Hj" in
  intros j Hj; vm_compute in Hj;
  repeat match goal with
         | D : _ \/ _ |- _ => destruct D
         | F : False |- _ => destruct F
         end;
  subst; split; eexists;
  (split;
   [vm_compute;
    ((left; reflexivity) + (right; left; reflexivity)
     + (right; right; left; reflexivity))
   |reflexivity]).

(** X4, witness: a catalog with [cat] and [dog]; a new hash is inserted
    under [cat] and [bird]. *)
Lemma insertIntoDB_then_groupByClass_witness :
  exists w1 groups w2,
    insertIntoDB nested_loop_engine "/img/2.png" ["cat"; "bird"] "bb22"
      (snd (run (cat_and_dog nested_loop_engine) empty_store))
    = (inr tt, w1) /\
    groupByClass nested_loop_engine 0 ColPath w1 = (inr groups, w2) /\
    forall c, In c ["cat"; "bird"] ->
      exists t, dict_get groups c = Some t /\
                incl (Text.split "/img/2.png") t /\
                (comma_free "/img/2.png" -> In "/img/2.png" t).
Proof.
  apply (insertIntoDB_then_groupByClass nested_loop_engine
           nested_loop_plan_perm).
  intros r Hr. vm_compute in Hr. destruct Hr as [<-|[]]. discriminate.
Defined.

(** X5, witness: the hash [aa11] is re-inserted at another path with a
    class it did not have. *)
Lemma insertIntoDB_known_hash_witness :
  exists w',
    insertIntoDB nested_loop_engine "/img/9.png" ["bird"] "aa11"
      (snd (run (cat_and_dog nested_loop_engine) empty_store))
    = (inr tt, w') /\
    CLASS (db w')
    = CLASS (db (snd (run (cat_and_dog nested_loop_engine) empty_store))) /\
    JUNCTION (db w')
    = JUNCTION (db (snd (run (cat_and_dog nested_loop_engine) empty_store))) /\
    Forall2
      (fun r r' =>
         m_imageID r' = m_imageID r /\ m_hash r' = m_hash r /\
         m_hidden r' = m_hidden r /\
         (m_hash r = "aa11" -> m_path r' = "/img/9.png") /\
         (m_hash r <> "aa11" -> r' = r))
      (MEDIA (db (snd (run (cat_and_dog nested_loop_engine) empty_store))))
      (MEDIA (db w')).
Proof.
  apply (insertIntoDB_known_hash nested_loop_engine).
  eexists. split; [vm_compute; left; reflexivity|reflexivity].
Defined.

(** X6, witness: two items under [cat]; a third is inserted. *)
Lemma insertIntoDB_keeps_keys_witness :
  exists w',
    insertIntoDB nested_loop_engine "/img/3.png" ["cat"; "dog"] "cc33"
      (snd (run (two_items_one_class nested_loop_engine
                   "/img/1.png" "aa11" "/img/2.png" "bb22" "cat")
                empty_store))
    = (inr tt, w') /\
    keys_ok (db w').
Proof.
  apply (insertIntoDB_keeps_keys nested_loop_engine). concrete_keys.
Defined.

(** X7, witness: two items under [cat]; a third is inserted. *)
Lemma insertIntoDB_keeps_links_witness :
  exists w',
    insertIntoDB nested_loop_engine "/img/3.png" ["cat"; "dog"] "cc33"
      (snd (run (two_items_one_class nested_loop_engine
                   "/img/1.png" "aa11" "/img/2.png" "bb22" "cat")
                empty_store))
    = (inr tt, w') /\
    links_ok (db w').
Proof.
  apply (insertIntoDB_keeps_links nested_loop_engine). concrete_links.
Defined.

(** X9, witness: two items under [cat]; deleting the first by its path,
    together with a path the catalog does not hold. *)
Lemma deleteFromDB_exact_witness :
  exists w',
    deleteFromDB nested_loop_engine ["/img/1.png"; "/img/9.png"]
      (snd (run (two_items_one_class nested_loop_engine
                   "/img/1.png" "aa11" "/img/2.png" "bb22" "cat")
                empty_store))
    = (inr tt, w') /\
    MEDIA (db w') = [mkMedia 2 "bb22" "/img/2.png" 0] /\
    trace w'
    = trace (snd (run (two_items_one_class nested_loop_engine
                         "/img/1.png" "aa11" "/img/2.png" "bb22" "cat")
                      empty_store))
      ++ [Executed (DeleteMedia ["/img/1.png"; "/img/9.png"]);
          DeleteFile ["/img/1.png"; "/img/9.png"]].
Proof.
  destruct (proj1 (deleteFromDB_exact nested_loop_engine
                     ["/img/1.png"; "/img/9.png"]
                     (snd (run (two_items_one_class nested_loop_engine
                                  "/img/1.png" "aa11" "/img/2.png" "bb22"
                                  "cat")
                               empty_store))))
    as [w' [Hrun [Hmedia [_ [_ [_ [_ Htrace]]]]]]].
  - vm_compute. discriminate.
  - exists w'. split; [exact Hrun|]. split; [|exact Htrace].
    rewrite Hmedia. reflexivity.
Defined.

(** X10, witness: under the cascading engine, one of two items under
    [cat] is deleted. *)
Lemma deleteFromDB_cascade_keeps_links_witness :
  result_of
    (deleteFromDB cascading_engine ["/img/1.png"]
       (snd (run (two_items_one_class cascading_engine
                    "/img/1.png" "aa11" "/img/2.png" "bb22" "cat")
                 empty_store)))
  = inr tt /\
  links_ok
    (db_of
       (deleteFromDB cascading_engine ["/img/1.png"]
          (snd (run (two_items_one_class cascading_engine
                       "/img/1.png" "aa11" "/img/2.png" "bb22" "cat")
                    empty_store)))).
Proof.
  destruct (deleteFromDB_cascade_keeps_links cascading_engine
              ["/img/1.png"]
              (snd (run (two_items_one_class cascading_engine
                           "/img/1.png" "aa11" "/img/2.png" "bb22" "cat")
                        empty_store)))
    as [Hlinks [Hok _]].
  - reflexivity.
  - concrete_links.
  - split; [apply Hok; vm_compute; discriminate|exact Hlinks].
Defined.

(** X11, witness: with plain rowid keys and no cascade the second item
    shows under [cat]. *)
Lemma deleted_links_are_inherited_witness :
  result_of (run (delete_then_insert rowid_engine
                    "/img/1.png" "aa11" "cat" "/img/2.png" "bb22")
                 empty_store)
  = inr [("cat", ["/img/2.png"])].
Proof.
  exact (deleted_links_are_inherited rowid_engine rowid_engine_perm
           "/img/1.png" "aa11" "cat" "/img/2.png" "bb22").
Defined.

(** X13, witness: two visible items under [cat]; hiding [cat], and
    showing it. *)
Lemma hideByClass_leaves_none_visible_witness :
  (exists w1 w2,
      hideByClass nested_loop_engine ["cat"]
        (snd (run (two_items_one_class nested_loop_engine
                     "/img/1.png" "aa11" "/img/2.png" "bb22" "cat")
                  empty_store))
      = (inr tt, w1) /\
      tupleByClass nested_loop_engine ["cat"] 0 ColPath w1 = (inr [], w2)) /\
  (exists w1 w2,
      unhideByClass nested_loop_engine ["cat"]
        (snd (run (two_items_one_class nested_loop_engine
                     "/img/1.png" "aa11" "/img/2.png" "bb22" "cat")
                  empty_store))
      = (inr tt, w1) /\
      tupleByClass nested_loop_engine ["cat"] 1 ColPath w1 = (inr [], w2)).
Proof.
  destruct (hideByClass_leaves_none_visible nested_loop_engine
              nested_loop_plan_perm ["cat"]
              (snd (run (two_items_one_class nested_loop_engine
                           "/img/1.png" "aa11" "/img/2.png" "bb22" "cat")
                        empty_store)))
    as [Hhide Hunhide].
  split.
  - apply Hhide; [|vm_compute; discriminate].
    intros i label _ Hm _. member_cases Hm; reflexivity.
  - apply Hunhide; [|vm_compute; discriminate].
    intros i label _ Hm _. member_cases Hm; reflexivity.
Defined.

(** X14, witness: two visible items under [cat]; deleting [cat]. *)
Lemma deleteByClass_leaves_none_visible_witness :
  exists w1 w2,
    deleteByClass nested_loop_engine ["cat"]
      (snd (run (two_items_one_class nested_loop_engine
                   "/img/1.png" "aa11" "/img/2.png" "bb22" "cat")
                empty_store))
    = (inr tt, w1) /\
    tupleByClass nested_loop_engine ["cat"] 0 ColPath w1 = (inr [], w2).
Proof.
  apply (deleteByClass_leaves_none_visible nested_loop_engine
           nested_loop_plan_perm).
  - intros i label _ Hm _. member_cases Hm; reflexivity.
  - vm_compute. discriminate.
Defined.

(** X16, witness: two items under [cat]; [cleanDB] on a filesystem that
    holds only the first. *)
Lemma visibility_and_deletion_keep_keys_witness :
  exists r w',
    cleanDB nested_loop_engine only_first_on_disk
      (snd (run (two_items_one_class nested_loop_engine
                   "/img/1.png" "aa11" "/img/2.png" "bb22" "cat")
                empty_store))
    = (r, w') /\
    (r = inr tt \/ r = inl OperationalError) /\
    keys_ok (db w').
Proof.
  apply (visibility_and_deletion_keep_keys nested_loop_engine
           only_first_on_disk). concrete_keys.
Defined.

(** X17, witness: one item under [cat] and [dog]; [bird] is no key. *)
Lemma groupByClass_keys_witness :
  exists groups,
    result_of
      (groupByClass nested_loop_engine 0 ColPath
         (snd (run (cat_and_dog nested_loop_engine) empty_store)))
    = inr groups /\
    dict_keys groups = ["cat"; "dog"] /\
    dict_get groups "bird" = None.
Proof.
  destruct (groupByClass_keys nested_loop_engine nested_loop_plan_perm
              0 ColPath
              (snd (run (cat_and_dog nested_loop_engine) empty_store)))
    as [groups [Hrun _]].
  exists groups. unfold result_of. rewrite Hrun. split; [reflexivity|].
  inversion Hrun. split; vm_compute; reflexivity.
Defined.

(** X18, witness: [cat], [dog] against [dog], [cat], [dog]. *)
Lemma tupleByClass_same_labels_witness :
  tupleByClass nested_loop_engine ["cat"; "dog"] 0 ColPath
    (snd (run (cat_and_dog nested_loop_engine) empty_store))
  = tupleByClass nested_loop_engine ["dog"; "cat"; "dog"] 0 ColPath
      (snd (run (cat_and_dog nested_loop_engine) empty_store)).
Proof.
  apply (tupleByClass_same_labels nested_loop_engine).
  intros label. simpl. intuition.
Defined.

(** X21, witness: one item under [cat] and [dog], grouped by
    [imageID]. *)
Lemma integer_columns_are_faithful_witness :
  exists groups t w1 w2,
    groupByClass nested_loop_engine 0 ColImageID
      (snd (run (cat_and_dog nested_loop_engine) empty_store))
    = (inr groups, w1) /\
    (forall label values,
        dict_get groups label = Some values ->
        Permutation values
          (map snd
             (filter (fun r => String.eqb (fst r) label)
                (joined (db (snd (run (cat_and_dog nested_loop_engine)
                                      empty_store)))
                        ColImageID 0)))) /\
    tupleByClass nested_loop_engine ["cat"] 0 ColImageID
      (snd (run (cat_and_dog nested_loop_engine) empty_store))
    = (inr t, w2) /\
    Permutation t
      (map snd
         (requested ["cat"]
            (joined (db (snd (run (cat_and_dog nested_loop_engine)
                                  empty_store)))
                    ColImageID 0))).
Proof.
  apply (integer_columns_are_faithful nested_loop_engine
           nested_loop_plan_perm).
  left. reflexivity.
Defined.

(** X15, witness: three items of which only the first is on disk;
    [cleanDB] twice. *)
Lemma cleanDB_twice_witness :
  exists w1,
    cleanDB nested_loop_engine only_first_on_disk
      (snd (run (three_items nested_loop_engine) empty_store))
    = (inr tt, w1) /\
    (forall r, In r (MEDIA (db w1)) ->
               pathExist only_first_on_disk (m_path r) = true) /\
    cleanDB nested_loop_engine only_first_on_disk w1
    = (inr tt, mkWorld (db w1) (trace w1 ++ [Executed SelectPaths])).
Proof.
  apply (proj1 (cleanDB_twice nested_loop_engine only_first_on_disk
                  (snd (run (three_items nested_loop_engine)
                            empty_store)))).
  vm_compute. discriminate.
Defined.

(** X20, witness: hiding [/img/1.png] and then [/img/2.png], against
    hiding both at once. *)
Lemma path_updates_compose_witness :
  db_of ((toggleVisibility nested_loop_engine ["/img/1.png"] 1 ;;
          toggleVisibility nested_loop_engine ["/img/2.png"] 1)
           (snd (run (three_items nested_loop_engine) empty_store)))
  = db_of (toggleVisibility nested_loop_engine
             (["/img/1.png"] ++ ["/img/2.png"]) 1
             (snd (run (three_items nested_loop_engine) empty_store))).
Proof.
  apply (proj1 (proj2 (path_updates_compose nested_loop_engine
                         (snd (run (three_items nested_loop_engine)
                                   empty_store))))).
  vm_compute. discriminate.
Defined.

(** X22, witness: three items; deleting the second by its path calls
    [deleteFile] once. *)
Lemma deleteFile_only_when_deleting_witness :
  exists w',
    deleteFromDB nested_loop_engine ["/img/2.png"]
      (snd (run (three_items nested_loop_engine) empty_store))
    = (inr tt, w') /\
    file_deletions (trace w')
    = file_deletions
        (trace (snd (run (three_items nested_loop_engine) empty_store)))
      ++ [["/img/2.png"]].
Proof.
  destruct (deleteFile_only_when_deleting nested_loop_engine
              (snd (run (three_items nested_loop_engine) empty_store)))
    as [_ [_ [_ [_ [_ [_ [_ Hdelete]]]]]]].
  apply (proj1 (Hdelete ["/img/2.png"])).
  vm_compute. discriminate.
Defined.
